(** * MFA-Version-2: the Kite MCP protocol client and the logout handler

    A shallow embedding of [kite_mcp_client.py] (the three public
    operations of [KiteMCPClient] and [extract_session_id_from_callback])
    and of the authentication part of [streamlit_app.py].

    Python's exceptions and the mutation of [self] are modelled by a state
    and exception monad over a [world]: the client object, the behaviour of
    the remote endpoint, and the record of what the client did to the
    outside (requests posted, sleeps, log lines). *)

From Stdlib Require Import String Ascii List ZArith Lia Bool DecimalString.
From Stdlib Require Import Floats.SpecFloat.
Import ListNotations.
Open Scope string_scope.
Open Scope Z_scope.

(** ** Python strings

    A [str] is a [string]: one [ascii] per character, for characters below
    256.  The literals the code searches for are all ASCII.  Log texts that
    carry pictographs hold their UTF-8 bytes; nothing inspects a log text. *)

Module PyStr.

(** The line break, Python's ["\n"]. *)
Definition nl : string := String (ascii_of_nat 10) EmptyString.

Fixpoint drop (n : nat) (s : string) : string :=
  match n, s with
  | O, _ => s
  | S _, EmptyString => EmptyString
  | S k, String _ t => drop k t
  end.

Fixpoint take (n : nat) (s : string) : string :=
  match n, s with
  | O, _ => EmptyString
  | S _, EmptyString => EmptyString
  | S k, String c t => String c (take k t)
  end.

(** [s.find(sub)]: the index of the leftmost occurrence. *)
Fixpoint find (sub s : string) : option nat :=
  if prefix sub s then Some O
  else match s with
       | EmptyString => None
       | String _ t => option_map S (find sub t)
       end.

(** [sub in s] on two strings. *)
Definition contains (sub s : string) : bool :=
  match find sub s with Some _ => true | None => false end.

(** [s.split(sep)] for a non-empty [sep]: cut at the leftmost occurrence,
    go on after it.  Every cut consumes at least one character, so
    [S (length s)] rounds are enough ([split_from_fuel] below).  The code
    only splits at non-empty literals; Python raises [ValueError] on an
    empty separator. *)
Fixpoint split_from (fuel : nat) (sep s : string) : list string :=
  match fuel with
  | O => [s]
  | S k =>
      match find sep s with
      | None => [s]
      | Some i => take i s :: split_from k sep (drop (i + String.length sep) s)
      end
  end.

Definition split (sep s : string) : list string :=
  split_from (S (String.length s)) sep s.

(** [sep.join(l)]. *)
Fixpoint join (sep : string) (l : list string) : string :=
  match l with
  | [] => EmptyString
  | [x] => x
  | x :: rest => x ++ sep ++ join sep rest
  end.

(** [c.isspace()] for a character below 256. *)
Definition isspace (c : ascii) : bool :=
  let n := nat_of_ascii c in
  ((9 <=? n) && (n <=? 13) || (28 <=? n) && (n <=? 31)
   || (n =? 32) || (n =? 133) || (n =? 160))%nat.

Fixpoint lstrip (s : string) : string :=
  match s with
  | EmptyString => EmptyString
  | String c t => if isspace c then lstrip t else s
  end.

Fixpoint rstrip (s : string) : string :=
  match s with
  | EmptyString => EmptyString
  | String c t =>
      match rstrip t with
      | EmptyString => if isspace c then EmptyString else String c EmptyString
      | t' => String c t'
      end
  end.

(** [s.strip()]. *)
Definition strip (s : string) : string := rstrip (lstrip s).

(** [str(n)] for an [int]. *)
Definition of_int (n : Z) : string := NilZero.string_of_int (Z.to_int n).

End PyStr.

(** ** Python values and exceptions *)

(** The values the client handles: what [response.json()] decodes to, and
    the dictionaries it posts. *)
#[local] Set Warnings "-register-all".
Inductive value : Type :=
| VNone
| VBool (b : bool)
| VInt (n : Z)
| VFloat (x : spec_float)
| VStr (s : string)
| VList (l : list value)
| VDict (d : list (string * value)).

(** An instance of Python's [Exception]: its class name and [str(e)].
    Signals outside [Exception] (cancellation, keyboard interrupt) are not
    caught by [except Exception] and are not modelled. *)
Inductive exn : Type := Exn (cls : string) (msg : string).

Definition str_of_exn (e : exn) : string := let (_, m) := e in m.

Inductive outcome (A : Type) : Type :=
| Ok (a : A)
| Raise (e : exn).
Arguments Ok {A} a.
Arguments Raise {A} e.

(** Dynamic typing: the operators the code applies to decoded values. *)
Module Py.

Definition type_name (v : value) : string :=
  match v with
  | VNone => "NoneType" | VBool _ => "bool" | VInt _ => "int"
  | VFloat _ => "float" | VStr _ => "str" | VList _ => "list"
  | VDict _ => "dict"
  end.

Definition is_str (s : string) (v : value) : bool :=
  match v with VStr t => String.eqb t s | _ => false end.

Fixpoint lookup (k : string) (d : list (string * value)) : option value :=
  match d with
  | [] => None
  | (k', v) :: rest => if String.eqb k' k then Some v else lookup k rest
  end.

(** [k in v] for a string [k]. *)
Definition contains (k : string) (v : value) : outcome bool :=
  match v with
  | VStr s => Ok (PyStr.contains k s)
  | VList l => Ok (existsb (is_str k) l)
  | VDict d => Ok (match lookup k d with Some _ => true | None => false end)
  | _ => Raise (Exn "TypeError"
                  ("argument of type '" ++ type_name v ++ "' is not iterable"))
  end.

(** [v[k]] for a string [k]. *)
Definition getitem (v : value) (k : string) : outcome value :=
  match v with
  | VDict d =>
      match lookup k d with
      | Some x => Ok x
      | None => Raise (Exn "KeyError" ("'" ++ k ++ "'"))
      end
  | VStr _ => Raise (Exn "TypeError" "string indices must be integers")
  | VList _ => Raise (Exn "TypeError" "list indices must be integers or slices, not str")
  | _ => Raise (Exn "TypeError"
                  ("'" ++ type_name v ++ "' object is not subscriptable"))
  end.

(** [l[i]] on a list. *)
Definition index {A : Type} (l : list A) (i : nat) : outcome A :=
  match nth_error l i with
  | Some x => Ok x
  | None => Raise (Exn "IndexError" "list index out of range")
  end.

Definition no_attribute {A : Type} (v : value) (attr : string) : outcome A :=
  Raise (Exn "AttributeError"
           ("'" ++ type_name v ++ "' object has no attribute '" ++ attr ++ "'")).

(** [v.get(k, default)]. *)
Definition get (v : value) (k : string) (default : value) : outcome value :=
  match v with
  | VDict d => Ok (match lookup k d with Some x => x | None => default end)
  | _ => no_attribute v "get"
  end.

(** [v.split(sep)]. *)
Definition split (v : value) (sep : string) : outcome (list string) :=
  match v with
  | VStr s => Ok (PyStr.split sep s)
  | _ => no_attribute v "split"
  end.

(** [v.strip()]. *)
Definition strip (v : value) : outcome string :=
  match v with
  | VStr s => Ok (PyStr.strip s)
  | _ => no_attribute v "strip"
  end.

(** [isinstance(v, list) and len(v) > 0]. *)
Definition nonempty_list (v : value) : option (list value) :=
  match v with
  | VList (x :: l) => Some (x :: l)
  | _ => None
  end.

End Py.

(** ** The client object and its surroundings *)

(** The return type of every public operation (the dataclass
    [MCPResponse]); a field Python leaves at its default is [None]. *)
Record MCPResponse : Type := mkMCPResponse {
  success : bool;
  data : option value;
  error : option string;
  login_url : option string
}.

(** A keyword argument holding a decoded value: Python's [None] is the
    absent field. *)
Definition optional (v : value) : option value :=
  match v with VNone => None | _ => Some v end.

(** [aiohttp.ClientSession(timeout=ClientTimeout(total=...))]. *)
Record ClientSession : Type := { total : Z }.

(** The fields [__init__] sets (the logger lives in the [world]). *)
Record KiteMCPClient : Type := mkClient {
  session : option ClientSession;
  mcp_url : string;
  session_id : option string;
  authenticated : bool;
  retry_count : Z;
  timeout : Z
}.

(** [KiteMCPClient()]. *)
Definition new_client : KiteMCPClient :=
  {| session := None;
     mcp_url := "https://mcp.kite.trade/sse";
     session_id := None;
     authenticated := false;
     retry_count := 3;
     timeout := 30 |}.

(** [__aenter__]. *)
Definition aenter (c : KiteMCPClient) : KiteMCPClient :=
  {| session := Some {| total := timeout c |};
     mcp_url := mcp_url c;
     session_id := session_id c;
     authenticated := authenticated c;
     retry_count := retry_count c;
     timeout := timeout c |}.

(** What the body of a response does under [await response.json()]. *)
Inductive body : Type :=
| Decodes (v : value)
| Undecodable (e : exn).

(** What one [session.post] meets: a transport fault raised by the call,
    or a response with its status. *)
Inductive reply : Type :=
| Fault (e : exn)
| Respond (status : Z) (b : body).

Record response : Type := { status : Z; payload : body }.

(** One outbound call: the URL, the JSON body and the content type. *)
Record post_call : Type := {
  post_url : string;
  post_json : value;
  post_content_type : string
}.

Inductive level : Type := INFO | WARNING | ERROR.

(** The state the operations run in.  [net n] is what the [n]-th post of
    this run meets (counted from 0): any behaviour of the endpoint is some
    [net]. *)
Record world : Type := mkWorld {
  self : KiteMCPClient;
  net : nat -> reply;
  sent : list post_call;
  sleeps : list Z;
  logged : list (level * string)
}.

(** ** The state and exception monad *)

Definition M (A : Type) : Type := world -> outcome A * world.

Definition ret {A : Type} (a : A) : M A := fun w => (Ok a, w).

Definition bind {A B : Type} (m : M A) (k : A -> M B) : M B :=
  fun w =>
    match m w with
    | (Ok a, w') => k a w'
    | (Raise e, w') => (Raise e, w')
    end.

Definition lift {A : Type} (r : outcome A) : M A := fun w => (r, w).

(** [try: body / except Exception as e: handler e].  What the body did to
    the world before it raised stays done. *)
Definition try_except {A : Type} (body : M A) (handler : exn -> M A) : M A :=
  fun w =>
    match body w with
    | (Ok a, w') => (Ok a, w')
    | (Raise e, w') => handler e w'
    end.

Declare Scope py_scope.
Delimit Scope py_scope with py.
Notation "x <- m ;; k" := (bind m (fun x => k))
  (at level 61, m at next level, right associativity) : py_scope.
Notation "m ;; k" := (bind m (fun _ => k))
  (at level 61, right associativity) : py_scope.
Open Scope py_scope.

(** Reading a field of [self]. *)
Definition attr {A : Type} (f : KiteMCPClient -> A) : M A :=
  fun w => (Ok (f (self w)), w).

(** [self.logger.info], [.warning], [.error]. *)
Definition log (l : level) (msg : string) : M unit :=
  fun w => (Ok tt,
            {| self := self w; net := net w; sent := sent w;
               sleeps := sleeps w; logged := logged w ++ [(l, msg)] |}).

(** [await asyncio.sleep(d)], for the delays a float can hold (below
    [2 ^ 1024]): the loop of [initialize_connection] asks for a longer one
    only from round 1024 on, that is with [retry_count] above 1025, where
    [asyncio.sleep] raises [OverflowError].  A property that says how a
    handshake ends after rounds of which only some sleep is stated for
    [retry_count <= 1025]; a handshake whose every round sleeps has slept
    [2 ^ 1024 - 1] seconds before round 1024. *)
Definition sleep (d : Z) : M unit :=
  fun w => (Ok tt,
            {| self := self w; net := net w; sent := sent w;
               sleeps := sleeps w ++ [d]; logged := logged w |}).

(** [self.session.post(url, json=payload, headers={"Content-Type":
    "application/json"})]: without a session ([self.session] is [None]
    outside [async with]) the attribute access raises and nothing is
    sent. *)
Definition session_post (url : string) (payload : value) : M response :=
  fun w =>
    match session (self w) with
    | None => (Py.no_attribute VNone "post", w)
    | Some _ =>
        let w' := {| self := self w; net := net w;
                     sent := sent w ++ [{| post_url := url;
                                           post_json := payload;
                                           post_content_type := "application/json" |}];
                     sleeps := sleeps w; logged := logged w |} in
        match net w (length (sent w)) with
        | Fault e => (Raise e, w')
        | Respond st b => (Ok {| status := st; payload := b |}, w')
        end
    end.

(** [await response.json()]. *)
Definition response_json (r : response) : M value :=
  match payload r with
  | Decodes v => ret v
  | Undecodable e => lift (Raise e)
  end.

(** [range(n)]. *)
Definition range (n : Z) : list Z := map Z.of_nat (seq 0 (Z.to_nat n)).

(** ** [initialize_connection] *)

Definition init_payload : value :=
  VDict [("jsonrpc", VStr "2.0");
         ("id", VInt 1);
         ("method", VStr "initialize");
         ("params",
          VDict [("protocolVersion", VStr "2024-11-05");
                 ("capabilities",
                  VDict [("roots", VDict [("listChanged", VBool true)]);
                         ("resources", VDict [("listChanged", VBool true)])]);
                 ("clientInfo",
                  VDict [("name", VStr "MFA-Version-2");
                         ("version", VStr "1.0.0")])])].

(** The envelope returned after the loop (line 86). *)
Definition exhausted : MCPResponse :=
  {| success := false; data := None;
     error := Some "Failed to initialize MCP connection after all retries";
     login_url := None |}.

(** One round of the [for attempt in range(self.retry_count)] loop:
    [Some r] when the round returns [r], [None] when the loop goes on. *)
Definition attempt_once (attempt : Z) : M (option MCPResponse) :=
  try_except
    (url <- attr mcp_url ;;
     response <- session_post url init_payload ;;
     if status response =? 200 then
       result <- response_json response ;;
       log INFO "✅ MCP connection initialized successfully" ;;
       ret (Some {| success := true; data := optional result;
                    error := None; login_url := None |})
     else
       log WARNING ("Attempt " ++ PyStr.of_int (attempt + 1)
                    ++ " failed with status " ++ PyStr.of_int (status response)) ;;
       ret None)
    (fun e =>
       log WARNING ("Connection attempt " ++ PyStr.of_int (attempt + 1)
                    ++ " failed: " ++ str_of_exn e) ;;
       rc <- attr retry_count ;;
       (if attempt <? rc - 1 then sleep (2 ^ attempt) else ret tt) ;;
       ret None).

Fixpoint attempts (l : list Z) : M (option MCPResponse) :=
  match l with
  | [] => ret None
  | attempt :: rest =>
      r <- attempt_once attempt ;;
      match r with
      | Some env => ret (Some env)
      | None => attempts rest
      end
  end.

Definition initialize_connection : M MCPResponse :=
  try_except
    (url <- attr mcp_url ;;
     log INFO ("Connecting to Kite MCP server: " ++ url) ;;
     rc <- attr retry_count ;;
     r <- attempts (range rc) ;;
     match r with
     | Some env => ret env
     | None => ret exhausted
     end)
    (fun e =>
       log ERROR ("Initialize connection error: " ++ str_of_exn e) ;;
       ret {| success := false; data := None;
              error := Some (str_of_exn e); login_url := None |}).

(** ** [request_login] *)

(** Sequencing of operations that may raise, outside the world. *)
Definition and_then {A B : Type} (r : outcome A) (k : A -> outcome B) : outcome B :=
  match r with
  | Ok a => k a
  | Raise e => Raise e
  end.

Notation "'let?' x := r 'in' k" := (and_then r (fun x => k))
  (at level 10, x name, r at level 100, k at level 200).

Definition login_payload : value :=
  VDict [("jsonrpc", VStr "2.0");
         ("id", VInt 2);
         ("method", VStr "tools/call");
         ("params", VDict [("name", VStr "login"); ("arguments", VDict [])])].

Definition login_domain : string := "https://kite.zerodha.com/connect/login".

Definition url_marker : string := "URL: ".

(** Lines 122-123, the extraction of the login URL from the text of the
    first content element: [None] when the text does not contain the login
    domain, otherwise the value bound to [login_url] (before
    [.strip()]). *)
Definition extract_login_url (login_info : value) : outcome (option value) :=
  let? has_domain := Py.contains login_domain login_info in
  if has_domain : bool then
    let? has_marker := Py.contains url_marker login_info in
    if has_marker : bool then
      let? parts := Py.split login_info url_marker in
      let? after := Py.index parts 1 in
      let? first_line := Py.index (PyStr.split PyStr.nl after) 0 in
      Ok (Some (VStr first_line))
    else Ok (Some login_info)
  else Ok None.

(** Lines 116-123: the walk through [result["result"]["content"][0]]
    down to the login URL; [None] where the code falls through to the
    "Invalid response format" return. *)
Definition find_login_url (result : value) : outcome (option value) :=
  let? has_result := Py.contains "result" result in
  let? has_content :=
    (if has_result : bool then
       let? r := Py.getitem result "result" in Py.contains "content" r
     else Ok false) in
  if has_content : bool then
    let? r := Py.getitem result "result" in
    let? content := Py.getitem r "content" in
    match Py.nonempty_list content with
    | Some l =>
        let? first := Py.index l 0 in
        let? login_info := Py.get first "text" (VStr EmptyString) in
        extract_login_url login_info
    | None => Ok None
    end
  else Ok None.

Definition failure (msg : string) : MCPResponse :=
  {| success := false; data := None; error := Some msg; login_url := None |}.

Definition request_login : M MCPResponse :=
  try_except
    (log INFO "🔐 Requesting login URL from Kite MCP..." ;;
     url <- attr mcp_url ;;
     response <- session_post url login_payload ;;
     if status response =? 200 then
       result <- response_json response ;;
       found <- lift (find_login_url result) ;;
       match found with
       | Some login_url =>
           log INFO "✅ Login URL received successfully" ;;
           stripped <- lift (Py.strip login_url) ;;
           ret {| success := true; data := None; error := None;
                  login_url := Some stripped |}
       | None =>
           log ERROR "❌ Could not extract login URL from response" ;;
           ret (failure "Invalid response format")
       end
     else
       let error_msg := "Login request failed with status "
                        ++ PyStr.of_int (status response) in
       log ERROR ("❌ " ++ error_msg) ;;
       ret (failure error_msg))
    (fun e =>
       let error_msg := "Login request error: " ++ str_of_exn e in
       log ERROR ("❌ " ++ error_msg) ;;
       ret (failure error_msg)).

(** ** [get_portfolio_recommendation] *)

Section Advice.

(** The f-string of lines 143-155, which renders the four arguments into
    the query text ([amount] with thousands separators and no decimals):
    it yields the text, or raises where a format does not fit the value it
    is given. *)
Variable format_query : value -> value -> value -> value -> outcome string.

Definition recommendation_payload
    (query_text : string) (age amount plan_type risk_level : value) : value :=
  VDict [("jsonrpc", VStr "2.0");
         ("id", VInt 3);
         ("method", VStr "tools/call");
         ("params",
          VDict [("name", VStr "get_investment_advice");
                 ("arguments",
                  VDict [("query", VStr query_text);
                         ("age", age);
                         ("amount", amount);
                         ("investment_type", plan_type);
                         ("risk_profile", risk_level)])])].

Definition get_portfolio_recommendation
    (age amount plan_type risk_level : value) : M MCPResponse :=
  try_except
    (query_text <- lift (format_query age amount plan_type risk_level) ;;
     log INFO "📊 Requesting portfolio recommendation..." ;;
     url <- attr mcp_url ;;
     response <- session_post url
                   (recommendation_payload query_text age amount plan_type risk_level) ;;
     if status response =? 200 then
       result <- response_json response ;;
       log INFO "✅ Portfolio recommendation received" ;;
       ret {| success := true; data := optional result;
              error := None; login_url := None |}
     else
       let error_msg := "Portfolio request failed with status "
                        ++ PyStr.of_int (status response) in
       log ERROR ("❌ " ++ error_msg) ;;
       ret (failure error_msg))
    (fun e =>
       let error_msg := "Portfolio recommendation error: " ++ str_of_exn e in
       log ERROR ("❌ " ++ error_msg) ;;
       ret (failure error_msg)).

End Advice.

(** ** [extract_session_id_from_callback] *)

(** [self.session_id = v]. *)
Definition set_session_id (v : option string) : M unit :=
  fun w =>
    (Ok tt,
     {| self := {| session := session (self w);
                   mcp_url := mcp_url (self w);
                   session_id := v;
                   authenticated := authenticated (self w);
                   retry_count := retry_count (self w);
                   timeout := timeout (self w) |};
        net := net w; sent := sent w; sleeps := sleeps w; logged := logged w |}).

(** [self.authenticated = b]. *)
Definition set_authenticated (b : bool) : M unit :=
  fun w =>
    (Ok tt,
     {| self := {| session := session (self w);
                   mcp_url := mcp_url (self w);
                   session_id := session_id (self w);
                   authenticated := b;
                   retry_count := retry_count (self w);
                   timeout := timeout (self w) |};
        net := net w; sent := sent w; sleeps := sleeps w; logged := logged w |}).

Definition session_marker : string := "session_id=".

Definition extract_session_id_from_callback (callback_url : string)
  : M (option string) :=
  try_except
    (if PyStr.contains session_marker callback_url then
       after <- lift (Py.index (PyStr.split session_marker callback_url) 1) ;;
       session_id <- lift (Py.index (PyStr.split "&" after) 0) ;;
       set_session_id (Some session_id) ;;
       set_authenticated true ;;
       log INFO "✅ Session ID extracted successfully" ;;
       ret (Some session_id)
     else ret None)
    (fun e =>
       log ERROR ("❌ Error extracting session ID: " ++ str_of_exn e) ;;
       ret None).

(** ** The authentication state of the Streamlit application *)

Module App.

(** The keys of [st.session_state] the script initialises (lines 25-30);
    [R] is the type of the stored calculator result. *)
Record session_state (R : Type) : Type := mkState {
  authenticated : bool;
  login_url : option string;
  portfolio_result : option R
}.
Arguments mkState {R}.
Arguments authenticated {R}.
Arguments login_url {R}.
Arguments portfolio_result {R}.

(** Lines 25-30 on a fresh session. *)
Definition initial {R : Type} : session_state R :=
  mkState false None None.

(** Lines 181-182, the body of the logout button's handler ([st.rerun()]
    restarts the script and changes no key). *)
Definition logout {R : Type} (st : session_state R) : session_state R :=
  mkState false None (portfolio_result st).

(** Lines 151 and 178-183: the logout button is drawn, and can be
    clicked, only in the branch taken when [authenticated] holds. *)
Definition sidebar_logout {R : Type} (clicked : bool) (st : session_state R)
  : session_state R :=
  if authenticated st then (if clicked then logout st else st) else st.

(** Lines 169-175, the handler of the verification button. *)
Definition verify_authentication {R : Type} (callback_url : string)
    (st : session_state R) : session_state R :=
  if negb (String.eqb callback_url EmptyString) && PyStr.contains session_marker callback_url
  then mkState true (login_url st) (portfolio_result st)
  else st.


End App.

(** * The vocabulary of the properties *)

(** The text before the first occurrence of [stop] (all of it when there
    is none), and the text after the first occurrence of [marker]. *)
Definition before_first (stop s : string) : string :=
  match PyStr.find stop s with
  | Some i => PyStr.take i s
  | None => s
  end.

Definition after_first (marker s : string) : string :=
  match PyStr.find marker s with
  | Some i => PyStr.drop (i + String.length marker) s
  | None => EmptyString
  end.

(** How one round of the retry loop ends. *)
Inductive round : Type :=
| Succeeded (v : value)   (* status 200, body decoded *)
| Refused (st : Z)        (* a status other than 200 *)
| Faulted (e : exn).      (* the post, or the decoding, raised *)

(** The end of a round of client [c] whose post meets [r]; without a
    session the post itself raises. *)
Definition classify (c : KiteMCPClient) (r : reply) : round :=
  match session c with
  | None => Faulted (Exn "AttributeError"
                       "'NoneType' object has no attribute 'post'")
  | Some _ =>
      match r with
      | Fault e => Faulted e
      | Respond st b =>
          if st =? 200 then
            match b with
            | Decodes v => Succeeded v
            | Undecodable e => Faulted e
            end
          else Refused st
      end
  end.

(** The sleep the [except] branch of round [attempt] performs. *)
Definition backoff (attempt rc : Z) : list Z :=
  if attempt <? rc - 1 then [2 ^ attempt] else [].

(** The success envelope around a decoded payload. *)
Definition handshake (v : value) : MCPResponse :=
  {| success := true; data := optional v; error := None; login_url := None |}.

(** What one post of client [c] adds to the calls sent. *)
Definition call (c : KiteMCPClient) (json : value) : list post_call :=
  match session c with
  | None => []
  | Some _ => [{| post_url := mcp_url c; post_json := json;
                  post_content_type := "application/json" |}]
  end.

(** The envelopes of [request_login], as a function of what its one post
    meets. *)
Definition login_failed (st : Z) : MCPResponse :=
  failure ("Login request failed with status " ++ PyStr.of_int st).

Definition login_error (e : exn) : MCPResponse :=
  failure ("Login request error: " ++ str_of_exn e).

Definition login_result (c : KiteMCPClient) (r : reply) : MCPResponse :=
  match classify c r with
  | Faulted e => login_error e
  | Refused st => login_failed st
  | Succeeded v =>
      match find_login_url v with
      | Raise e => login_error e
      | Ok None => failure "Invalid response format"
      | Ok (Some u) =>
          match Py.strip u with
          | Raise e => login_error e
          | Ok s => {| success := true; data := None; error := None;
                       login_url := Some s |}
          end
      end
  end.

(** The envelopes of [get_portfolio_recommendation], likewise. *)
Section AdviceResult.

Variable format_query : value -> value -> value -> value -> outcome string.
Variables age amount plan_type risk_level : value.

Definition advice_failed (st : Z) : MCPResponse :=
  failure ("Portfolio request failed with status " ++ PyStr.of_int st).

Definition advice_error (e : exn) : MCPResponse :=
  failure ("Portfolio recommendation error: " ++ str_of_exn e).

Definition advice_result (c : KiteMCPClient) (r : reply) : MCPResponse :=
  match format_query age amount plan_type risk_level with
  | Raise e => advice_error e
  | Ok _ =>
      match classify c r with
      | Faulted e => advice_error e
      | Refused st => advice_failed st
      | Succeeded v => handshake v
      end
  end.

(** What the operation posts: nothing when the query text cannot be
    rendered. *)
Definition advice_calls (c : KiteMCPClient) : list post_call :=
  match format_query age amount plan_type risk_level with
  | Raise _ => []
  | Ok query_text =>
      call c (recommendation_payload query_text age amount plan_type risk_level)
  end.

End AdviceResult.

(** The client once a session id is stored. *)
Definition signed_in (id : string) (c : KiteMCPClient) : KiteMCPClient :=
  {| session := session c; mcp_url := mcp_url c;
     session_id := Some id; authenticated := true;
     retry_count := retry_count c; timeout := timeout c |}.

(** [callback_url.split("session_id=")[1].split("&")[0]]: the text after
    the first marker, cut at the next marker and then at the first ["&"]. *)
Definition session_id_of (callback_url : string) : string :=
  before_first "&"
    (before_first session_marker
       (after_first session_marker callback_url)).

(** A client inside [async with KiteMCPClient() as client], nothing sent
    yet, facing the endpoint [n]. *)
Definition fresh_world (n : nat -> reply) : world :=
  mkWorld (aenter new_client) n [] [] [].

(** An endpoint that gives the replies of [l] in turn, then [last] for
    ever. *)
Definition answers (l : list reply) (last : reply) : nat -> reply :=
  fun n => nth n l last.

(** Two replies: status 500, and status 200 with an empty object. *)
Definition status_500 : reply := Respond 500 (Decodes VNone).

Definition status_200 : reply := Respond 200 (Decodes (VDict [])).

(** The id of the envelope of an outbound call. *)
Definition request_id (p : post_call) : option value :=
  match post_json p with
  | VDict d => Py.lookup "id" d
  | _ => None
  end.

Definition request_ids (w : world) : list (option value) :=
  map request_id (sent w).

(** A list of ids that strictly increases from one call to the next. *)
Fixpoint strictly_increasing (l : list (option value)) : bool :=
  match l with
  | Some (VInt a) :: (Some (VInt b) :: _) as rest =>
      (a <? b) && strictly_increasing rest
  | [Some (VInt _)] => true
  | [] => true
  | _ => false
  end.

(** An envelope either flags success or carries a non-empty message. *)
Definition reports (env : MCPResponse) : Prop :=
  success env = true
  \/ exists msg, success env = false /\ error env = Some msg /\ msg <> EmptyString.

(** Success and an error message do not come together. *)
Definition exclusive (env : MCPResponse) : Prop :=
  ~ (success env = true /\ error env <> None).

(** The decoded payload of a well-formed login response. *)
Definition login_response (text : string) : value :=
  VDict [("result", VDict [("content", VList [VDict [("text", VStr text)]])])].

(** What line 123 binds to [login_url] for a text: with the marker, the
    text after the first marker, cut at the next marker and then at the
    first line break; without it, the whole text. *)
Definition login_url_of (text : string) : string :=
  if PyStr.contains url_marker text then
    before_first PyStr.nl
      (before_first url_marker (after_first url_marker text))
  else text.

(** The reading of the specification: with the marker, the text between
    the first marker and the next line break. *)
Definition claimed_login_url (text : string) : string :=
  if PyStr.contains url_marker text then
    before_first PyStr.nl (after_first url_marker text)
  else text.

(** The texts and callbacks the properties are tried on. *)
Definition login_example : string :=
  "Please login. URL: https://kite.zerodha.com/connect/login?x=1"
  ++ PyStr.nl ++ "more text".

Definition login_twice_marked : string :=
  "Login URL: https://kite.zerodha.com/connect/login?x=1 (copy the URL: it expires)"
  ++ PyStr.nl.

Definition callback_example : string :=
  "https://host/cb?status=success&session_id=abc123&foo=bar".

Definition callback_unmarked : string :=
  "https://host/cb?status=success&abc123&foo=bar".

(** Callbacks with two markers, the second followed by ["&"] or by the
    end of the string. *)
Definition callback_twice_marked : string :=
  "https://host/cb?session_id=abc&x=1&session_id=&y=2".

Definition callback_marked_at_end : string :=
  "https://host/cb?session_id=abc&session_id=".

Definition exhausted_message : string :=
  "Failed to initialize MCP connection after all retries".

(** A rendering of the query text that never raises. *)
Definition render (age amount plan_type risk_level : value) : outcome string :=
  Ok "query".

(** * The callers in the application

    [streamlit_app.py] runs the client through two coroutines, each inside
    its own [async with KiteMCPClient() as client], and through the
    sidebar and form parts of the script. *)

(** The client once [async with] is left: [__aexit__] closes the session
    when there is one. *)
Record released : Type := mkReleased {
  final : world;
  session_closed : bool
}.

(** [__aexit__]. *)
Definition aexit (w : world) : released :=
  {| final := w;
     session_closed := match session (self w) with
                       | Some _ => true
                       | None => false
                       end |}.

(** [async with KiteMCPClient() as client: body], facing the endpoint
    [n]: the exit runs whether the body returns or raises, and lets an
    exception through. *)
Definition async_with {A : Type} (n : nat -> reply) (body : M A)
  : outcome A * released :=
  let (r, w) := body (fresh_world n) in (r, aexit w).

(** [f"{x}"] for an [Optional[str]]. *)
Definition str_of_optional (o : option string) : string :=
  match o with
  | Some s => s
  | None => "None"
  end.

(** The truth value of an [Optional[str]]. *)
Definition truthy (o : option string) : bool :=
  match o with
  | Some (String _ _) => true
  | _ => false
  end.

Section Callers.

Context {R : Type}.

(** Lines 120-131, the body of the [async with] of
    [initialize_kite_mcp]: the returned pair, and the session state after
    the assignment of line 128. *)
Definition initialize_kite_mcp_body (st : App.session_state R)
  : M ((bool * string) * App.session_state R) :=
  init_response <- initialize_connection ;;
  if negb (success init_response) then
    ret ((false, "Connection failed: " ++ str_of_optional (error init_response)), st)
  else
    login_response <- request_login ;;
    if success login_response && truthy (login_url login_response) then
      ret ((true, "Connection successful"),
           App.mkState (App.authenticated st) (login_url login_response)
             (App.portfolio_result st))
    else
      ret ((false, "Login request failed: "
                   ++ str_of_optional (error login_response)), st).

(** [initialize_kite_mcp] (lines 116-134). *)
Definition initialize_kite_mcp (n : nat -> reply) (st : App.session_state R)
  : ((bool * string) * App.session_state R) * released :=
  match async_with n (initialize_kite_mcp_body st) with
  | (Ok r, rel) => (r, rel)
  | (Raise e, rel) => (((false, "Error: " ++ str_of_exn e), st), rel)
  end.

(** What the sidebar draws. *)
Inductive shown : Type :=
| Success (msg : string)
| Info (msg : string)
| Markdown (text : value)
| TextArea (label : string)
| ErrorLine (msg : string)
| Warning (msg : string)
| Json (v : value).

(** One run of the sidebar part of the script. *)
Record sidebar_run : Type := mkRun {
  state : App.session_state R;
  drawn : list shown;
  rerun : bool;
  calls : list post_call
}.

(** Lines 151-183.  The three buttons return [true] in the run their click
    starts; [callback_url] is what the text area holds; [n] is the
    endpoint.  [calls] lists what the run posted. *)
Definition sidebar (connect verify logout : bool) (callback_url : string)
    (n : nat -> reply) (st : App.session_state R) : sidebar_run :=
  if negb (App.authenticated st) then
    if connect then
      let '((ok, message, st1), rel) := initialize_kite_mcp n st in
      if ok : bool then
        match App.login_url st1 with
        | Some (String c u) =>
            let form :=
              [Success "✅ Connected to Kite MCP!";
               Info "📱 Please complete authentication:";
               Markdown (VStr ("[🔗 Click here to login](" ++ String c u ++ ")"));
               TextArea "📋 Paste callback URL after login:"] in
            if verify then
              if negb (String.eqb callback_url EmptyString)
                 && PyStr.contains session_marker callback_url
              then mkRun (App.verify_authentication callback_url st1)
                     (form ++ [Success "🎉 Authentication successful!"])
                     true (sent (final rel))
              else mkRun st1 (form ++ [ErrorLine "❌ Invalid callback URL"])
                     false (sent (final rel))
            else mkRun st1 form false (sent (final rel))
        | _ => mkRun st1 [Success "✅ Connected to Kite MCP!"] false
                 (sent (final rel))
        end
      else mkRun st1 [ErrorLine ("❌ " ++ message)] false (sent (final rel))
    else mkRun st [] false []
  else
    mkRun (App.sidebar_logout logout st)
      [Success "✅ Authenticated with Kite MCP"] logout [].

End Callers.

Section Recommendation.

Context {R : Type}.

Variable format_query : value -> value -> value -> value -> outcome string.

(** A field of the envelope as the second component of the returned
    pair. *)
Definition of_data (d : option value) : value :=
  match d with Some v => v | None => VNone end.

Definition of_error (e : option string) : value :=
  match e with Some s => VStr s | None => VNone end.

(** [get_mcp_recommendation] (lines 136-146). *)
Definition get_mcp_recommendation
    (age amount plan_type risk_level : value) (n : nat -> reply)
  : (bool * value) * released :=
  match async_with n
          (response <- get_portfolio_recommendation format_query
                         age amount plan_type risk_level ;;
           if success response then ret (true, of_data (data response))
           else ret (false, of_error (error response)))
  with
  | (Ok r, rel) => (r, rel)
  | (Raise e, rel) => ((false, VStr (str_of_exn e)), rel)
  end.

(** The session state with the key [mcp_recommendation], absent until it
    is first assigned. *)
Record page_state : Type := mkPage {
  core : App.session_state R;
  mcp_recommendation : option value
}.

(** Lines 246-254: the three calls on the calculator (its class is
    defined outside these files) and the dictionary built from their
    results, as one function of the four inputs of the form: the value
    stored under [portfolio_result], or the exception a call raises, which
    ends the run of the script. *)
Variable calculate : value -> value -> value -> value -> outcome R.

(** Lines 244-265, the block [if submitted:].  The result of the
    calculator is stored first; the recommendation is asked for when
    authenticated, and stored when it came. *)
Definition submit_form (submitted : bool)
    (age amount plan_type risk_level : value) (n : nat -> reply)
    (pg : page_state) : outcome (page_state * list shown * list post_call) :=
  if submitted then
    match calculate age amount plan_type risk_level with
    | Raise e => Raise e
    | Ok result =>
        let stored :=
          App.mkState (App.authenticated (core pg)) (App.login_url (core pg))
            (Some result) in
        if App.authenticated (core pg) then
          let '((ok, mcp_data), rel) :=
            get_mcp_recommendation age amount plan_type risk_level n in
          if ok : bool then
            Ok (mkPage stored (Some mcp_data),
                [Success "✅ Real-time recommendation received from Kite MCP!"],
                sent (final rel))
          else
            Ok (mkPage stored (mcp_recommendation pg),
                [Warning ("⚠️ Could not get MCP recommendation: "
                          ++ match mcp_data with
                             | VStr s => s
                             | _ => "None"
                             end)],
                sent (final rel))
        else Ok (mkPage stored (mcp_recommendation pg), [], [])
    end
  else Ok (pg, [], []).

End Recommendation.

(** Lines 341-349, the walk of the display through the stored
    recommendation. *)
Definition recommendation_view (mcp_data : value) : outcome shown :=
  let? has_result := Py.contains "result" mcp_data in
  let? has_content :=
    (if has_result : bool then
       let? r := Py.getitem mcp_data "result" in Py.contains "content" r
     else Ok false) in
  if has_content : bool then
    let? r := Py.getitem mcp_data "result" in
    let? content := Py.getitem r "content" in
    match Py.nonempty_list content with
    | Some l =>
        let? first := Py.index l 0 in
        let? mcp_text := Py.get first "text" (VStr EmptyString) in
        Ok (Markdown mcp_text)
    | None => Ok (Json mcp_data)
    end
  else Ok (Json mcp_data).


Section AllocationChart.

(** The numbers of a [PortfolioAllocation] (its class is defined outside
    these files): their type, the test [x > 0] and [str(x)]. *)
Variable num : Type.
Variable positive : num -> bool.
Variable show : num -> string.

(** The fields of the allocation the chart reads. *)
Record PortfolioAllocation : Type := mkAllocation {
  equity_percent : num;
  debt_percent : num;
  gold_percent : num
}.

(** One [if] of lines 45-58: the three lists grow together, or not at
    all. *)
Definition add_slice (name colour : string) (x : num)
    (lists : list string * list num * list string)
  : list string * list num * list string :=
  let '(labels, values, colors) := lists in
  if positive x then
    (List.app labels [name ++ " (" ++ show x ++ "%)"],
     List.app values [x],
     List.app colors [colour])
  else lists.

(** Lines 41-58 of [create_allocation_chart]: [labels], [values] and
    [colors] as handed to the pie. *)
Definition chart_slices (allocation : PortfolioAllocation)
  : list string * list num * list string :=
  add_slice "Gold" "#ffd700" (gold_percent allocation)
    (add_slice "Debt" "#ff7f0e" (debt_percent allocation)
       (add_slice "Equity" "#1f77b4" (equity_percent allocation)
          ([], [], []))).

End AllocationChart.

(** * More vocabulary *)

(** [l1] is [l2] with some elements left out. *)
Inductive subseq {A : Type} : list A -> list A -> Prop :=
| subseq_nil : subseq [] []
| subseq_skip (x : A) (l1 l2 : list A) : subseq l1 l2 -> subseq l1 (x :: l2)
| subseq_keep (x : A) (l1 l2 : list A) : subseq l1 l2 -> subseq (x :: l1) (x :: l2).

(** The sleeps of a handshake whose every round raises: [2 ** attempt]
    for every round but the last. *)
Definition schedule (rc : Z) : list Z := map (Z.pow 2) (range (rc - 1)).

(** The call every round of the handshake posts. *)
Definition handshake_call (c : KiteMCPClient) : post_call :=
  {| post_url := mcp_url c; post_json := init_payload;
     post_content_type := "application/json" |}.

(** Two worlds that differ at most in the stored session id, the
    authenticated flag, the timeout and the log. *)
Definition same_but_auth (w1 w2 : world) : Prop :=
  session (self w1) = session (self w2)
  /\ mcp_url (self w1) = mcp_url (self w2)
  /\ retry_count (self w1) = retry_count (self w2)
  /\ net w1 = net w2
  /\ sent w1 = sent w2
  /\ sleeps w1 = sleeps w2.

(** A reply that is not a status 200 with a decodable body. *)
Definition unsuccessful (r : reply) : Prop :=
  forall v, r <> Respond 200 (Decodes v).

(** A reply that makes the round raise: a transport fault, or a status
    200 whose body cannot be decoded. *)
Definition raising (r : reply) : Prop :=
  exists e, r = Fault e \/ r = Respond 200 (Undecodable e).

(** The text of a content element: its ["text"], or the empty string. *)
Definition text_of (f : list (string * value)) : value :=
  match Py.lookup "text" f with
  | Some x => x
  | None => VStr EmptyString
  end.

(** A decoded response object in which the walk of lines 116-122 comes to
    no login text: no ["result"], no ["content"] in it, a content that is
    not a non-empty list, or a first text without the login domain. *)
Inductive unrecognised : list (string * value) -> Prop :=
| no_result (d : list (string * value)) :
    Py.lookup "result" d = None -> unrecognised d
| no_content (d r : list (string * value)) :
    Py.lookup "result" d = Some (VDict r) ->
    Py.lookup "content" r = None -> unrecognised d
| no_elements (d r : list (string * value)) (content : value) :
    Py.lookup "result" d = Some (VDict r) ->
    Py.lookup "content" r = Some content ->
    Py.nonempty_list content = None -> unrecognised d
| no_domain (d r f : list (string * value)) (rest : list value) (text : string) :
    Py.lookup "result" d = Some (VDict r) ->
    Py.lookup "content" r = Some (VList (VDict f :: rest)) ->
    text_of f = VStr text ->
    PyStr.contains login_domain text = false -> unrecognised d.

(** A value that is neither a string, a list nor an object. *)
Definition scalar (v : value) : Prop :=
  match v with
  | VNone | VBool _ | VInt _ | VFloat _ => True
  | _ => False
  end.

(** A value that is not an object. *)
Definition not_object (v : value) : Prop :=
  match v with
  | VDict _ => False
  | _ => True
  end.

(** A decoded response on which the walk raises: a scalar instead of the
    object, a first content element that is not an object, or a scalar as
    its text. *)
Inductive ill_typed : value -> Prop :=
| scalar_response (v : value) : scalar v -> ill_typed v
| element_not_object (d r : list (string * value)) (x : value) (rest : list value) :
    Py.lookup "result" d = Some (VDict r) ->
    Py.lookup "content" r = Some (VList (x :: rest)) ->
    not_object x -> ill_typed (VDict d)
| scalar_text (d r f : list (string * value)) (rest : list value) :
    Py.lookup "result" d = Some (VDict r) ->
    Py.lookup "content" r = Some (VList (VDict f :: rest)) ->
    scalar (text_of f) -> ill_typed (VDict d).

(** * Properties *)

(** ** Strings: what [find] and [split] compute *)

Module PyStrFacts.
Import PyStr.

Lemma prefix_nil (s : string) : prefix EmptyString s = true.
Proof. now destruct s. Qed.

Lemma prefix_app (s t : string) : prefix s (s ++ t) = true.
Proof.
  induction s as [|c s IH]; simpl; [apply prefix_nil|].
  destruct (ascii_dec c c) as [_|n]; [exact IH | now elim n].
Qed.

Lemma prefix_split (sub s : string) :
  prefix sub s = true -> s = sub ++ drop (String.length sub) s.
Proof.
  revert s; induction sub as [|c sub IH]; intros s H.
  - reflexivity.
  - destruct s as [|d s]; [discriminate|]. simpl in H.
    destruct (ascii_dec c d) as [->|]; [|discriminate].
    simpl. f_equal. now apply IH.
Qed.

Lemma take_drop (n : nat) (s : string) : take n s ++ drop n s = s.
Proof.
  revert s; induction n as [|n IH]; intros [|c s]; simpl; try reflexivity.
  now rewrite IH.
Qed.

Lemma drop_drop (n m : nat) (s : string) : drop n (drop m s) = drop (m + n) s.
Proof.
  revert s; induction m as [|m IH]; intros s; simpl.
  - reflexivity.
  - destruct s as [|c s]; [now destruct n | apply IH].
Qed.

Lemma length_app (s t : string) :
  String.length (s ++ t) = (String.length s + String.length t)%nat.
Proof. induction s as [|c s IH]; simpl; [reflexivity | now rewrite IH]. Qed.

Lemma length_take_le (n : nat) (s : string) :
  (String.length (take n s) <= n)%nat.
Proof.
  revert s; induction n as [|n IH]; intros [|c s]; simpl; try lia.
  specialize (IH s); lia.
Qed.

Lemma length_drop (n : nat) (s : string) :
  String.length (drop n s) = (String.length s - n)%nat.
Proof.
  revert s; induction n as [|n IH]; intros [|c s]; simpl; try lia.
  apply IH.
Qed.

Lemma find_unfold (sub s : string) :
  find sub s =
  if prefix sub s then Some O
  else match s with
       | EmptyString => None
       | String _ t => option_map S (find sub t)
       end.
Proof. now destruct s. Qed.

(** [find] returns an occurrence... *)
Lemma find_prefix (sub s : string) (i : nat) :
  find sub s = Some i -> prefix sub (drop i s) = true.
Proof.
  revert i; induction s as [|c s IH]; intros i; rewrite find_unfold;
    destruct (prefix sub _) eqn:E.
  - now intros [= <-].
  - discriminate.
  - now intros [= <-].
  - destruct (find sub s) as [j|]; [|discriminate].
    intros [= <-]. simpl. now apply IH.
Qed.

(** ...and the leftmost one. *)
Lemma find_leftmost (sub s : string) (i j : nat) :
  find sub s = Some i -> (j < i)%nat -> prefix sub (drop j s) = false.
Proof.
  revert i j; induction s as [|c s IH]; intros i j; rewrite find_unfold;
    destruct (prefix sub _) eqn:E.
  - intros [= <-]; lia.
  - discriminate.
  - intros [= <-]; lia.
  - destruct (find sub s) as [k|] eqn:F; [|discriminate].
    intros [= <-] Hj. destruct j as [|j]; [exact E|]. simpl.
    apply (IH k); [reflexivity | lia].
Qed.

Lemma find_none (sub s : string) (j : nat) :
  find sub s = None -> prefix sub (drop j s) = false.
Proof.
  revert j; induction s as [|c s IH]; intros j; rewrite find_unfold;
    destruct (prefix sub _) eqn:E; try discriminate.
  - intros _. now destruct j.
  - destruct (find sub s) eqn:F; [discriminate|].
    intros _. destruct j as [|j]; [exact E | now apply IH].
Qed.

(** A found occurrence cuts the text in three. *)
Lemma find_occurrence (sub s : string) (i : nat) :
  find sub s = Some i ->
  s = take i s ++ sub ++ drop (i + String.length sub) s.
Proof.
  intros F. apply find_prefix, prefix_split in F.
  rewrite drop_drop in F.
  rewrite <- F. symmetry. apply take_drop.
Qed.

Lemma find_bound (sub s : string) (i : nat) :
  find sub s = Some i -> (i + String.length sub <= String.length s)%nat.
Proof.
  revert i; induction s as [|c s IH]; intros i; rewrite find_unfold;
    destruct (prefix sub _) eqn:E; try discriminate.
  - intros [= <-]. apply prefix_split, (f_equal String.length) in E.
    rewrite length_app in E. lia.
  - intros [= <-]. apply prefix_split, (f_equal String.length) in E.
    rewrite length_app in E. lia.
  - destruct (find sub s) as [k|]; [|discriminate].
    intros [= <-]. specialize (IH k eq_refl). simpl. lia.
Qed.

Lemma find_app (pre sub post : string) :
  exists i, find sub (pre ++ sub ++ post) = Some i.
Proof.
  induction pre as [|c pre [i IH]].
  - exists O. cbn [append]. now rewrite find_unfold, prefix_app.
  - cbn [append]. rewrite find_unfold. destruct (prefix sub _).
    + now exists O.
    + rewrite IH. now exists (S i).
Qed.

(** A text built around [sub] contains it. *)
Lemma contains_app (pre sub post : string) :
  contains sub (pre ++ sub ++ post) = true.
Proof.
  unfold contains. now destruct (find_app pre sub post) as [i ->].
Qed.

Lemma contains_suffix (pre sub : string) : contains sub (pre ++ sub) = true.
Proof.
  replace (pre ++ sub) with (pre ++ sub ++ EmptyString).
  - apply contains_app.
  - f_equal. induction sub; simpl; congruence.
Qed.

Lemma split_from_first (fuel : nat) (sep s : string) :
  nth_error (split_from (S fuel) sep s) 0 = Some (before_first sep s).
Proof.
  unfold before_first. simpl. now destruct (find sep s).
Qed.

(** [s.split(sep)[0]]. *)
Lemma split_first (sep s : string) :
  nth_error (split sep s) 0 = Some (before_first sep s).
Proof. apply split_from_first. Qed.

(** [s.split(sep)[1]] when [sep] occurs in [s]. *)
Lemma split_second (sep s : string) :
  contains sep s = true ->
  nth_error (split sep s) 1 = Some (before_first sep (after_first sep s)).
Proof.
  unfold contains, split, after_first.
  destruct (find sep s) as [i|] eqn:F; [intros _ | discriminate].
  simpl. rewrite F. simpl.
  destruct (String.length s) as [|n] eqn:L.
  - apply find_bound in F.
    assert (i = O) by lia. assert (String.length sep = O) by lia.
    destruct s; [|discriminate]. destruct sep; [|discriminate].
    subst. reflexivity.
  - apply split_from_first.
Qed.

(** Cutting and joining again gives the text back. *)
Lemma split_from_cons (fuel : nat) (sep s : string) :
  exists p rest, split_from fuel sep s = p :: rest.
Proof.
  destruct fuel as [|k]; simpl; [now eexists _, _|].
  destruct (find sep s); now eexists _, _.
Qed.

Lemma join_split_from (fuel : nat) (sep s : string) :
  join sep (split_from fuel sep s) = s.
Proof.
  revert s; induction fuel as [|k IH]; intros s; simpl; [reflexivity|].
  destruct (find sep s) as [i|] eqn:F; [|reflexivity].
  specialize (IH (drop (i + String.length sep) s)).
  destruct (split_from_cons k sep (drop (i + String.length sep) s))
    as (p & rest & E).
  rewrite E in *. cbn [join]. cbn [join] in IH. rewrite IH.
  symmetry. now apply find_occurrence.
Qed.

Lemma join_split (sep s : string) : join sep (split sep s) = s.
Proof. apply join_split_from. Qed.

Lemma app_assoc (a b c : string) : (a ++ b) ++ c = a ++ b ++ c.
Proof. induction a as [|x a IH]; simpl; [reflexivity | now rewrite IH]. Qed.

Lemma prefix_app_r (sub a b : string) :
  prefix sub a = true -> prefix sub (a ++ b) = true.
Proof.
  intros H. apply prefix_split in H. rewrite H, app_assoc. apply prefix_app.
Qed.

Lemma drop_take (i j : nat) (s : string) :
  (j <= i)%nat -> drop j s = drop j (take i s) ++ drop i s.
Proof.
  revert i s; induction j as [|j IH]; intros i s H.
  - simpl. symmetry. apply take_drop.
  - destruct i as [|i]; [lia|]. destruct s as [|c s]; [reflexivity|].
    simpl. apply IH. lia.
Qed.

(** Nothing before the leftmost occurrence holds the separator. *)
Lemma find_take_none (sep s : string) (i : nat) :
  sep <> EmptyString -> find sep s = Some i -> find sep (take i s) = None.
Proof.
  intros Hsep F. destruct (find sep (take i s)) as [j|] eqn:G; [|reflexivity].
  exfalso.
  assert (0 < String.length sep)%nat by (destruct sep; simpl; [congruence | lia]).
  pose proof (find_bound _ _ _ G) as B.
  pose proof (length_take_le i s) as L.
  assert (Hj : (j < i)%nat) by lia.
  pose proof (find_leftmost _ _ _ _ F Hj) as N.
  apply find_prefix in G.
  rewrite (drop_take i j s) in N by lia.
  now rewrite (prefix_app_r _ _ _ G) in N.
Qed.

(** With fuel above the length of the text, no piece is left uncut. *)
Lemma split_from_fuel (fuel : nat) (sep s : string) :
  sep <> EmptyString -> (String.length s < fuel)%nat ->
  Forall (fun piece => contains sep piece = false) (split_from fuel sep s).
Proof.
  intros Hsep. revert s; induction fuel as [|k IH]; intros s L; [lia|].
  simpl. destruct (find sep s) as [i|] eqn:F.
  - constructor.
    + unfold contains. now rewrite (find_take_none sep s i).
    + apply IH. rewrite length_drop.
      pose proof (find_bound _ _ _ F).
      assert (0 < String.length sep)%nat
        by (destruct sep; simpl; [congruence | lia]).
      lia.
  - constructor; [|constructor]. unfold contains. now rewrite F.
Qed.

Lemma split_pieces (sep s : string) :
  sep <> EmptyString ->
  Forall (fun piece => contains sep piece = false) (split sep s).
Proof. intros H. apply split_from_fuel; [exact H | lia]. Qed.

End PyStrFacts.

(** ** The handshake, one round at a time *)

Lemma attempt_once_run (attempt : Z) (w : world) :
  exists w',
    attempt_once attempt w
    = (Ok match classify (self w) (net w (length (sent w))) with
          | Succeeded v => Some (handshake v)
          | _ => None
          end, w')
    /\ self w' = self w
    /\ net w' = net w
    /\ sent w' = (sent w ++ call (self w) init_payload)%list
    /\ sleeps w' = (sleeps w ++
                    match classify (self w) (net w (length (sent w))) with
                    | Faulted _ => backoff attempt (retry_count (self w))
                    | _ => []
                    end)%list.
Proof.
  unfold attempt_once, try_except, bind, attr, session_post, classify, call,
    backoff, response_json, handshake.
  destruct (session (self w)) as [cs|]; cbn.
  2:{ destruct (attempt <? retry_count (self w) - 1); cbn;
      eexists; repeat split; cbn; now rewrite ?app_nil_r. }
  destruct (net w (length (sent w))) as [e|st b]; cbn.
  { destruct (attempt <? retry_count (self w) - 1); cbn;
    eexists; repeat split; cbn; now rewrite ?app_nil_r. }
  destruct (st =? 200); cbn.
  2:{ eexists; repeat split; cbn; now rewrite ?app_nil_r. }
  destruct b as [v|e]; cbn.
  { eexists; repeat split; cbn; now rewrite ?app_nil_r. }
  destruct (attempt <? retry_count (self w) - 1); cbn;
    eexists; repeat split; cbn; now rewrite ?app_nil_r.
Qed.

Lemma classify_succeeded (c : KiteMCPClient) (r : reply) (v : value) :
  classify c r = Succeeded v ->
  session c <> None /\ r = Respond 200 (Decodes v).
Proof.
  unfold classify. destruct (session c); [|discriminate].
  destruct r as [e|st b]; [discriminate|].
  destruct (Z.eqb_spec st 200) as [->|]; [|discriminate].
  destruct b; [|discriminate]. intros [= ->]. now split.
Qed.

Lemma call_length (c : KiteMCPClient) (json : value) :
  session c <> None -> length (call c json) = 1%nat.
Proof. unfold call. now destruct (session c). Qed.

Lemma call_json (c : KiteMCPClient) (json : value) :
  Forall (fun p => post_json p = json) (call c json).
Proof. unfold call. destruct (session c); repeat constructor. Qed.

Lemma call_length_le (c : KiteMCPClient) (json : value) :
  (length (call c json) <= 1)%nat.
Proof. unfold call. destruct (session c); simpl; lia. Qed.

(** The retry loop never raises; it leaves the client and the endpoint
    alone; everything it posts is the handshake envelope; and it returns
    an envelope only for a round that met status 200 with a decodable
    body. *)
Lemma attempts_run (l : list Z) (w : world) :
  exists r w',
    attempts l w = (Ok r, w')
    /\ self w' = self w
    /\ net w' = net w
    /\ (exists new,
          sent w' = (sent w ++ new)%list
          /\ Forall (fun p => post_json p = init_payload) new
          /\ (length new <= length l)%nat)
    /\ (forall env, r = Some env ->
          exists n v,
            (length (sent w) <= n < length (sent w'))%nat
            /\ net w n = Respond 200 (Decodes v)
            /\ env = handshake v).
Proof.
  revert w; induction l as [|a l IH]; intros w.
  - exists None, w. cbn. repeat split; try discriminate.
    exists []. rewrite app_nil_r. repeat split; [constructor | simpl; lia].
  - destruct (attempt_once_run a w) as (w1 & E & Hself & Hnet & Hsent & _).
    cbn [attempts]. unfold bind at 1. rewrite E.
    destruct (classify (self w) (net w (length (sent w)))) as [v|st|e] eqn:C.
    + apply classify_succeeded in C as [Hs Hr].
      exists (Some (handshake v)), w1. cbn. repeat split; trivial.
      * exists (call (self w) init_payload). repeat split; trivial.
        -- apply call_json.
        -- pose proof (call_length_le (self w) init_payload). simpl; lia.
      * intros env [= <-]. exists (length (sent w)), v.
        rewrite Hsent, length_app, call_length by exact Hs.
        repeat split; trivial; lia.
    + destruct (IH w1) as (r & w' & E' & Hself' & Hnet' & (new & S1 & S2 & S3) & Hr).
      exists r, w'. repeat split; try congruence.
      * exists (call (self w) init_payload ++ new)%list.
        rewrite S1, Hsent, <- app_assoc. repeat split; trivial.
        -- apply Forall_app; split; [apply call_json | exact S2].
        -- pose proof (call_length_le (self w) init_payload).
           rewrite length_app. simpl; lia.
      * intros env Henv. destruct (Hr env Henv) as (n & v & Hn & Hv & ->).
        exists n, v. rewrite Hsent, length_app in Hn.
        rewrite Hnet in Hv. repeat split; trivial; lia.
    + destruct (IH w1) as (r & w' & E' & Hself' & Hnet' & (new & S1 & S2 & S3) & Hr).
      exists r, w'. repeat split; try congruence.
      * exists (call (self w) init_payload ++ new)%list.
        rewrite S1, Hsent, <- app_assoc. repeat split; trivial.
        -- apply Forall_app; split; [apply call_json | exact S2].
        -- pose proof (call_length_le (self w) init_payload).
           rewrite length_app. simpl; lia.
      * intros env Henv. destruct (Hr env Henv) as (n & v & Hn & Hv & ->).
        exists n, v. rewrite Hsent, length_app in Hn.
        rewrite Hnet in Hv. repeat split; trivial; lia.
Qed.

Lemma initialize_connection_run (w : world) :
  exists env w',
    initialize_connection w = (Ok env, w')
    /\ self w' = self w
    /\ net w' = net w
    /\ (exists new,
          sent w' = (sent w ++ new)%list
          /\ Forall (fun p => post_json p = init_payload) new
          /\ (length new <= length (range (retry_count (self w))))%nat)
    /\ (env = exhausted
        \/ exists n v,
             (length (sent w) <= n < length (sent w'))%nat
             /\ net w n = Respond 200 (Decodes v)
             /\ env = handshake v).
Proof.
  unfold initialize_connection, try_except, bind, attr. cbn [log].
  match goal with
  | |- context [attempts ?l ?w0] =>
      destruct (attempts_run l w0) as (r & w' & E & Hself & Hnet & Hsent & Hr)
  end.
  rewrite E. cbn [self net sent] in *.
  destruct r as [env|]; cbn.
  - exists env, w'. repeat split; trivial.
    right. destruct (Hr env eq_refl) as (n & v & ? & ? & ?). now exists n, v.
  - exists exhausted, w'. repeat split; trivial. now left.
Qed.

(** ** The single-shot operations as functions of what the post meets *)

Lemma request_login_run (w : world) :
  exists w',
    request_login w
    = (Ok (login_result (self w) (net w (length (sent w)))), w')
    /\ self w' = self w
    /\ net w' = net w
    /\ sent w' = (sent w ++ call (self w) login_payload)%list
    /\ sleeps w' = sleeps w.
Proof.
  unfold request_login, try_except, bind, attr, session_post, login_result,
    classify, call, response_json, login_failed, login_error, lift.
  cbn [log self net sent sleeps logged].
  destruct (session (self w)) as [cs|]; cbn.
  2:{ eexists; repeat split; cbn; now rewrite ?app_nil_r. }
  destruct (net w (length (sent w))) as [e|st b]; cbn.
  { eexists; repeat split. }
  destruct (st =? 200); cbn.
  2:{ eexists; repeat split. }
  destruct b as [v|e]; cbn.
  2:{ eexists; repeat split. }
  destruct (find_login_url v) as [[u|]|e]; cbn.
  - destruct (Py.strip u) as [s|e]; cbn; eexists; repeat split.
  - eexists; repeat split.
  - eexists; repeat split.
Qed.

Lemma get_portfolio_recommendation_run
    (format_query : value -> value -> value -> value -> outcome string)
    (age amount plan_type risk_level : value) (w : world) :
  exists w',
    get_portfolio_recommendation format_query age amount plan_type risk_level w
    = (Ok (advice_result format_query age amount plan_type risk_level
             (self w) (net w (length (sent w)))), w')
    /\ self w' = self w
    /\ net w' = net w
    /\ sent w' = (sent w ++ advice_calls format_query age amount plan_type
                              risk_level (self w))%list
    /\ sleeps w' = sleeps w.
Proof.
  unfold get_portfolio_recommendation, try_except, bind, attr, session_post,
    advice_result, advice_calls, classify, call, response_json,
    advice_failed, advice_error, handshake, lift.
  destruct (format_query age amount plan_type risk_level) as [q|e]; cbn.
  2:{ eexists; repeat split; cbn; now rewrite ?app_nil_r. }
  destruct (session (self w)) as [cs|]; cbn.
  2:{ eexists; repeat split; cbn; now rewrite ?app_nil_r. }
  destruct (net w (length (sent w))) as [e|st b]; cbn.
  { eexists; repeat split. }
  destruct (st =? 200); cbn.
  2:{ eexists; repeat split. }
  destruct b as [v|e]; cbn; eexists; repeat split.
Qed.

(** ** The callback *)

Lemma extract_session_id_found (callback_url : string) (w : world) :
  PyStr.contains session_marker callback_url = true ->
  exists w',
    extract_session_id_from_callback callback_url w
    = (Ok (Some (session_id_of callback_url)), w')
    /\ self w' = signed_in (session_id_of callback_url) (self w)
    /\ net w' = net w /\ sent w' = sent w /\ sleeps w' = sleeps w.
Proof.
  intros H.
  unfold extract_session_id_from_callback, try_except, bind, lift, Py.index.
  rewrite H, (PyStrFacts.split_second _ _ H), PyStrFacts.split_first.
  cbn. eexists; split; [reflexivity|]. now cbn.
Qed.

Lemma extract_session_id_absent (callback_url : string) (w : world) :
  PyStr.contains session_marker callback_url = false ->
  extract_session_id_from_callback callback_url w = (Ok None, w).
Proof.
  intros H. unfold extract_session_id_from_callback, try_except.
  now rewrite H.
Qed.

(** ** Backoff in the retry loop *)

Lemma classify_refused (c : KiteMCPClient) (st : Z) (b : body) :
  session c <> None -> st <> 200 -> classify c (Respond st b) = Refused st.
Proof.
  unfold classify. destruct (session c); [|congruence].
  intros _ H. now destruct (Z.eqb_spec st 200).
Qed.

Lemma classify_fault (c : KiteMCPClient) (e : exn) :
  session c <> None -> classify c (Fault e) = Faulted e.
Proof. unfold classify. destruct (session c); congruence. Qed.

Lemma classify_ok (c : KiteMCPClient) (v : value) :
  session c <> None -> classify c (Respond 200 (Decodes v)) = Succeeded v.
Proof. unfold classify. destruct (session c); [reflexivity | congruence]. Qed.

(** One turn of the loop. *)
Lemma attempts_cons (a : Z) (l : list Z) (w : world) :
  exists w1,
    attempts (a :: l) w
    = match classify (self w) (net w (length (sent w))) with
      | Succeeded v => (Ok (Some (handshake v)), w1)
      | _ => attempts l w1
      end
    /\ self w1 = self w
    /\ net w1 = net w
    /\ sent w1 = (sent w ++ call (self w) init_payload)%list
    /\ sleeps w1 = (sleeps w ++
                    match classify (self w) (net w (length (sent w))) with
                    | Faulted _ => backoff a (retry_count (self w))
                    | _ => []
                    end)%list.
Proof.
  destruct (attempt_once_run a w) as (w1 & E & H).
  exists w1. split; [|exact H].
  cbn [attempts]. unfold bind at 1. rewrite E.
  now destruct (classify (self w) (net w (length (sent w)))).
Qed.

(** Rounds that all meet a status other than 200 follow one another
    without any sleep, and the loop falls through. *)
Lemma attempts_refused (l : list Z) (w : world) :
  session (self w) <> None ->
  (forall k, (k < length l)%nat ->
     exists st b, net w (length (sent w) + k) = Respond st b /\ st <> 200) ->
  exists w',
    attempts l w = (Ok None, w')
    /\ self w' = self w
    /\ net w' = net w
    /\ length (sent w') = (length (sent w) + length l)%nat
    /\ sleeps w' = sleeps w.
Proof.
  revert w; induction l as [|a l IH]; intros w Hs Hnet.
  - exists w. cbn. repeat split. lia.
  - destruct (attempts_cons a l w) as (w1 & E & Hself & Hn & Hsent & Hsl).
    destruct (Hnet O) as (st & b & R & Hst); [simpl; lia|].
    rewrite Nat.add_0_r in R.
    rewrite R, (classify_refused _ _ _ Hs Hst) in *.
    assert (L : length (sent w1) = S (length (sent w)))
      by (rewrite Hsent, length_app, call_length by exact Hs; lia).
    destruct (IH w1) as (w' & E' & Hself' & Hn' & Hsent' & Hsl').
    + now rewrite Hself.
    + intros k Hk. rewrite Hn, L.
      replace (S (length (sent w)) + k)%nat with (length (sent w) + S k)%nat by lia.
      apply Hnet. simpl; lia.
    + exists w'. rewrite E, E'. repeat split; try congruence.
      * rewrite Hsent', L. simpl; lia.
      * rewrite Hsl', Hsl. apply app_nil_r.
Qed.

(** The start of [initialize_connection] up to the loop. *)
Lemma initialize_connection_loop (w : world) :
  exists w0,
    self w0 = self w /\ net w0 = net w /\ sent w0 = sent w
    /\ sleeps w0 = sleeps w
    /\ initialize_connection w
       = match attempts (range (retry_count (self w))) w0 with
         | (Ok (Some env), w') => (Ok env, w')
         | (Ok None, w') => (Ok exhausted, w')
         | (Raise e, w') =>
             (Ok {| success := false; data := None;
                    error := Some (str_of_exn e); login_url := None |},
              snd (log ERROR ("Initialize connection error: " ++ str_of_exn e) w'))
         end.
Proof.
  exists (snd (log INFO ("Connecting to Kite MCP server: " ++ mcp_url (self w)) w)).
  repeat (split; [reflexivity|]).
  unfold initialize_connection, try_except, bind, attr. cbn [log self snd].
  match goal with
  | |- context [attempts ?l ?w0] => destruct (attempts l w0) as [[[env|]|e] w']
  end; reflexivity.
Qed.

(** Two refused rounds, then status 200: the handshake succeeds and has
    slept at no point. *)
Lemma handshake_refused_twice
    (w : world) (s1 s2 : Z) (b1 b2 : body) (v : value) :
  session (self w) <> None ->
  retry_count (self w) = 3 ->
  net w (length (sent w)) = Respond s1 b1 -> s1 <> 200 ->
  net w (S (length (sent w))) = Respond s2 b2 -> s2 <> 200 ->
  net w (S (S (length (sent w)))) = Respond 200 (Decodes v) ->
  exists w',
    initialize_connection w = (Ok (handshake v), w')
    /\ sleeps w' = sleeps w
    /\ length (sent w') = (length (sent w) + 3)%nat.
Proof.
  intros Hs Hrc N1 H1 N2 H2 N3.
  destruct (initialize_connection_loop w) as (w0 & S0 & T0 & U0 & V0 & ->).
  rewrite Hrc. change (range 3) with [0; 1; 2].
  destruct (attempts_cons 0 [1; 2] w0) as (w1 & -> & S1 & T1 & U1 & V1).
  rewrite S0, T0, U0, N1, (classify_refused _ _ _ Hs H1) in *.
  assert (L1 : length (sent w1) = S (length (sent w)))
    by (rewrite U1, length_app, call_length by exact Hs; lia).
  destruct (attempts_cons 1 [2] w1) as (w2 & -> & S2 & T2 & U2 & V2).
  rewrite S1, T1, L1, N2, (classify_refused _ _ _ Hs H2) in *.
  assert (L2 : length (sent w2) = S (S (length (sent w))))
    by (rewrite U2, length_app, call_length by exact Hs; lia).
  destruct (attempts_cons 2 [] w2) as (w3 & -> & S3 & T3 & U3 & V3).
  rewrite S2, T2, L2, N3, (classify_ok _ _ Hs) in *.
  exists w3. repeat split.
  - rewrite V3, V2, V1, V0. now rewrite !app_nil_r.
  - rewrite U3, length_app, call_length by exact Hs. lia.
Qed.

(** The sibling path: two rounds that raise, then status 200.  Here the
    loop sleeps 1 and then 2. *)
Lemma handshake_faulted_twice (w : world) (e1 e2 : exn) (v : value) :
  session (self w) <> None ->
  retry_count (self w) = 3 ->
  net w (length (sent w)) = Fault e1 ->
  net w (S (length (sent w))) = Fault e2 ->
  net w (S (S (length (sent w)))) = Respond 200 (Decodes v) ->
  exists w',
    initialize_connection w = (Ok (handshake v), w')
    /\ sleeps w' = (sleeps w ++ [1; 2])%list.
Proof.
  intros Hs Hrc N1 N2 N3.
  destruct (initialize_connection_loop w) as (w0 & S0 & T0 & U0 & V0 & ->).
  rewrite Hrc. change (range 3) with [0; 1; 2].
  destruct (attempts_cons 0 [1; 2] w0) as (w1 & -> & S1 & T1 & U1 & V1).
  rewrite S0, T0, U0, N1, (classify_fault _ _ Hs), Hrc in *.
  assert (L1 : length (sent w1) = S (length (sent w)))
    by (rewrite U1, length_app, call_length by exact Hs; lia).
  destruct (attempts_cons 1 [2] w1) as (w2 & -> & S2 & T2 & U2 & V2).
  rewrite S1, T1, L1, N2, (classify_fault _ _ Hs), Hrc in *.
  assert (L2 : length (sent w2) = S (S (length (sent w))))
    by (rewrite U2, length_app, call_length by exact Hs; lia).
  destruct (attempts_cons 2 [] w2) as (w3 & -> & S3 & T3 & U3 & V3).
  rewrite S2, T2, L2, N3, (classify_ok _ _ Hs) in *.
  exists w3. split; [reflexivity|].
  rewrite V3, V2, V1, V0. cbn. now rewrite app_nil_r, <- app_assoc.
Qed.

(** C1 (the code departs from the claim): when the endpoint answers status
    500 twice and then status 200, [initialize_connection] succeeds after
    three posts, and it has slept at no point: the recorded sleeps are
    [[]], not [[1; 2]].  Only a round that raises backs off
    ([handshake_faulted_twice]). *)
Theorem handshake_500_500_200_never_sleeps :
  exists w',
    initialize_connection (fresh_world (answers [status_500; status_500] status_200))
    = (Ok (handshake (VDict [])), w')
    /\ sleeps w' = []
    /\ sleeps w' <> [1; 2]
    /\ length (sent w') = 3%nat.
Proof.
  destruct (handshake_refused_twice
              (fresh_world (answers [status_500; status_500] status_200))
              500 500 (Decodes VNone) (Decodes VNone) (VDict []))
    as (w' & E & Hsl & Hsent); try reflexivity; try discriminate.
  exists w'. rewrite Hsl. repeat split; trivial; discriminate.
Qed.

(** ** Envelopes *)

Lemma failure_reports (c : ascii) (pre rest : string) :
  reports (failure (String c pre ++ rest)).
Proof. right. eexists. repeat split. discriminate. Qed.

Lemma handshake_reports (v : value) : reports (handshake v).
Proof. now left. Qed.

Lemma login_result_reports (c : KiteMCPClient) (r : reply) :
  reports (login_result c r).
Proof.
  unfold login_result, login_error, login_failed.
  destruct (classify c r) as [v|st|e]; try apply failure_reports.
  destruct (find_login_url v) as [[u|]|e]; try apply failure_reports.
  - destruct (Py.strip u); [now left | apply failure_reports].
  - right. eexists. repeat split. discriminate.
Qed.

Lemma advice_result_reports
    (fq : value -> value -> value -> value -> outcome string)
    (age amount plan_type risk_level : value) (c : KiteMCPClient) (r : reply) :
  reports (advice_result fq age amount plan_type risk_level c r).
Proof.
  unfold advice_result, advice_error, advice_failed.
  destruct (fq age amount plan_type risk_level); try apply failure_reports.
  destruct (classify c r); try apply failure_reports. now left.
Qed.

(** C2: whatever the endpoint does (any transport fault, any undecodable
    body, any status, with or without an open session) and whatever the
    arguments, each of the three public operations returns an envelope and
    does not raise; the envelope flags success or carries a non-empty
    error message. *)
Theorem operations_return_envelopes :
  (forall w, exists env w',
      initialize_connection w = (Ok env, w') /\ reports env)
  /\ (forall w, exists env w',
        request_login w = (Ok env, w') /\ reports env)
  /\ (forall fq age amount plan_type risk_level w, exists env w',
        get_portfolio_recommendation fq age amount plan_type risk_level w
        = (Ok env, w')
        /\ reports env).
Proof.
  repeat split.
  - intros w.
    destruct (initialize_connection_run w) as (env & w' & E & _ & _ & _ & H).
    exists env, w'. split; [exact E|].
    destruct H as [->|(n & v & _ & _ & ->)].
    + right. eexists. repeat split. discriminate.
    + apply handshake_reports.
  - intros w. destruct (request_login_run w) as (w' & E & _).
    eexists _, w'. split; [exact E | apply login_result_reports].
  - intros fq age amount plan_type risk_level w.
    destruct (get_portfolio_recommendation_run fq age amount plan_type risk_level w)
      as (w' & E & _).
    eexists _, w'. split; [exact E | apply advice_result_reports].
Qed.

Lemma login_result_exclusive (c : KiteMCPClient) (r : reply) :
  exclusive (login_result c r).
Proof.
  unfold login_result, exclusive.
  destruct (classify c r) as [v|st|e]; cbn; try (intros [? _]; discriminate).
  destruct (find_login_url v) as [[u|]|e]; cbn; try (intros [? _]; discriminate).
  destruct (Py.strip u); cbn; [intros [_ H]; now apply H | intros [? _]; discriminate].
Qed.

Lemma advice_result_exclusive
    (fq : value -> value -> value -> value -> outcome string)
    (age amount plan_type risk_level : value) (c : KiteMCPClient) (r : reply) :
  exclusive (advice_result fq age amount plan_type risk_level c r)
  /\ login_url (advice_result fq age amount plan_type risk_level c r) = None.
Proof.
  unfold advice_result, exclusive.
  destruct (fq age amount plan_type risk_level); cbn;
    [|split; [intros [? _]; discriminate | reflexivity]].
  destruct (classify c r); cbn; split; try reflexivity;
    try (intros [? _]; discriminate).
  intros [_ H]; now apply H.
Qed.

(** C3: on every path of the three public operations, the returned
    envelope never has both [success] true and an error message; the
    envelopes of [initialize_connection] and of
    [get_portfolio_recommendation] never carry a [login_url]; and
    [request_login] does populate it on a run. *)
Theorem envelope_invariant :
  (forall w, exists env w',
      initialize_connection w = (Ok env, w')
      /\ exclusive env /\ login_url env = None)
  /\ (forall w, exists env w',
        request_login w = (Ok env, w') /\ exclusive env)
  /\ (forall fq age amount plan_type risk_level w, exists env w',
        get_portfolio_recommendation fq age amount plan_type risk_level w
        = (Ok env, w')
        /\ exclusive env /\ login_url env = None)
  /\ (exists w env w',
        request_login w = (Ok env, w')
        /\ login_url env = Some login_domain).
Proof.
  repeat split.
  - intros w.
    destruct (initialize_connection_run w) as (env & w' & E & _ & _ & _ & H).
    exists env, w'. split; [exact E|].
    destruct H as [->|(n & v & _ & _ & ->)]; split; try reflexivity.
    + intros [? _]; discriminate.
    + intros [_ H]; now apply H.
  - intros w. destruct (request_login_run w) as (w' & E & _).
    eexists _, w'. split; [exact E | apply login_result_exclusive].
  - intros fq age amount plan_type risk_level w.
    destruct (get_portfolio_recommendation_run fq age amount plan_type risk_level w)
      as (w' & E & _).
    eexists _, w'. split; [exact E | apply advice_result_exclusive].
  - exists (fresh_world (answers [] (Respond 200 (Decodes (login_response login_domain))))).
    eexists _, _. split; [vm_compute; reflexivity | reflexivity].
Qed.

(** ** The login URL *)

(** Line 123 on a text that contains the login domain. *)
Lemma extract_login_url_text (text : string) :
  PyStr.contains login_domain text = true ->
  extract_login_url (VStr text) = Ok (Some (VStr (login_url_of text))).
Proof.
  intros H.
  unfold extract_login_url, login_url_of, Py.contains, Py.split, Py.index,
    and_then.
  rewrite H. destruct (PyStr.contains url_marker text) eqn:M; [|reflexivity].
  now rewrite (PyStrFacts.split_second _ _ M), PyStrFacts.split_first.
Qed.

(** A response of the expected shape leads [find_login_url] to the text
    of the first content element. *)
Lemma find_login_url_text (d r f : list (string * value)) (rest : list value)
    (login_info : value) :
  Py.lookup "result" d = Some (VDict r) ->
  Py.lookup "content" r = Some (VList (VDict f :: rest)) ->
  Py.lookup "text" f = Some login_info ->
  find_login_url (VDict d) = extract_login_url login_info.
Proof.
  intros H1 H2 H3. unfold find_login_url. cbn. rewrite H1. cbn.
  rewrite H2. cbn. now rewrite H3.
Qed.

(** [request_login] returns the extracted URL stripped of surrounding
    whitespace. *)
Lemma request_login_strips
    (w : world) (d r f : list (string * value)) (rest : list value)
    (text : string) :
  session (self w) <> None ->
  net w (length (sent w)) = Respond 200 (Decodes (VDict d)) ->
  Py.lookup "result" d = Some (VDict r) ->
  Py.lookup "content" r = Some (VList (VDict f :: rest)) ->
  Py.lookup "text" f = Some (VStr text) ->
  PyStr.contains login_domain text = true ->
  exists w',
    request_login w
    = (Ok {| success := true; data := None; error := None;
             login_url := Some (PyStr.strip (login_url_of text)) |}, w').
Proof.
  intros Hs Hn H1 H2 H3 Hd. destruct (request_login_run w) as (w' & E & _).
  exists w'. rewrite E, Hn. unfold login_result.
  rewrite (classify_ok _ _ Hs).
  rewrite (find_login_url_text _ _ _ _ _ H1 H2 H3).
  now rewrite (extract_login_url_text text Hd).
Qed.

(** C4 (as amended): for every text that contains the login domain, the
    extraction succeeds; when the text contains ["URL: "] the URL is the
    text after the first marker, up to the next marker or the next line
    break, whichever comes first (to the end of the text when there is
    neither); otherwise it is the whole text.  [request_login] returns
    that value stripped of surrounding whitespace.  On the example of the
    specification the value is exactly
    ["https://kite.zerodha.com/connect/login?x=1"]. *)
Theorem login_url_extraction :
  (forall text,
      PyStr.contains login_domain text = true ->
      extract_login_url (VStr text) = Ok (Some (VStr (login_url_of text))))
  /\ (forall w d r f rest text,
        session (self w) <> None ->
        net w (length (sent w)) = Respond 200 (Decodes (VDict d)) ->
        Py.lookup "result" d = Some (VDict r) ->
        Py.lookup "content" r = Some (VList (VDict f :: rest)) ->
        Py.lookup "text" f = Some (VStr text) ->
        PyStr.contains login_domain text = true ->
        exists w',
          request_login w
          = (Ok {| success := true; data := None; error := None;
                   login_url := Some (PyStr.strip (login_url_of text)) |}, w'))
  /\ extract_login_url (VStr login_example)
     = Ok (Some (VStr "https://kite.zerodha.com/connect/login?x=1"))
  /\ (exists w',
        request_login
          (fresh_world (answers [] (Respond 200 (Decodes (login_response login_example)))))
        = (Ok {| success := true; data := None; error := None;
                 login_url := Some "https://kite.zerodha.com/connect/login?x=1" |},
           w')).
Proof.
  split; [exact extract_login_url_text|].
  split; [exact request_login_strips|].
  split.
  - exact (eq_trans (extract_login_url_text login_example eq_refl) eq_refl).
  - eexists. vm_compute. reflexivity.
Qed.

Lemma login_url_extraction_unmarked :
  PyStr.contains login_domain login_domain = true
  /\ PyStr.contains url_marker login_domain = false
  /\ extract_login_url (VStr login_domain) = Ok (Some (VStr login_domain))
  /\ exists w',
       request_login
         (fresh_world (answers [] (Respond 200 (Decodes (login_response login_domain)))))
       = (Ok {| success := true; data := None; error := None;
                login_url := Some login_domain |}, w').
Proof.
  split; [reflexivity|]. split; [reflexivity|]. split.
  - exact (proj1 login_url_extraction login_domain eq_refl).
  - apply (proj1 (proj2 login_url_extraction)
             (fresh_world (answers [] (Respond 200 (Decodes (login_response login_domain)))))
             [("result", VDict [("content", VList [VDict [("text", VStr login_domain)]])])]
             [("content", VList [VDict [("text", VStr login_domain)]])]
             [("text", VStr login_domain)]
             []
             login_domain); try reflexivity.
    discriminate.
Defined.

(** C4 (as stated) fails: with a second marker before the line break the
    code stops at that marker, not at the line break. *)
Lemma login_url_stops_at_second_marker :
  PyStr.contains login_domain login_twice_marked = true
  /\ PyStr.contains url_marker login_twice_marked = true
  /\ claimed_login_url login_twice_marked
     = "https://kite.zerodha.com/connect/login?x=1 (copy the URL: it expires)"
  /\ extract_login_url (VStr login_twice_marked)
     = Ok (Some (VStr "https://kite.zerodha.com/connect/login?x=1 (copy the "))
  /\ extract_login_url (VStr login_twice_marked)
     <> Ok (Some (VStr (claimed_login_url login_twice_marked))).
Proof.
  repeat split; try reflexivity. vm_compute. discriminate.
Qed.

(** ** The session id *)

(** C5: on the callback
    ["https://host/cb?status=success&session_id=abc123&foo=bar"] the
    extraction returns exactly ["abc123"], stores it and sets the
    authenticated flag; on a callback without ["session_id="] it returns
    no value and leaves the whole world, the session fields included, as
    it was. *)
Theorem extract_session_id_contract :
  (forall w, exists w',
      extract_session_id_from_callback callback_example w
      = (Ok (Some "abc123"), w')
      /\ session_id (self w') = Some "abc123"
      /\ authenticated (self w') = true)
  /\ (forall callback_url w,
        PyStr.contains session_marker callback_url = false ->
        extract_session_id_from_callback callback_url w = (Ok None, w)
        /\ session_id (self (snd (extract_session_id_from_callback callback_url w)))
           = session_id (self w)
        /\ authenticated (self (snd (extract_session_id_from_callback callback_url w)))
           = authenticated (self w)).
Proof.
  split.
  - intros w.
    destruct (extract_session_id_found callback_example w eq_refl)
      as (w' & E & Hself & _).
    exists w'. rewrite E, Hself. repeat split.
  - intros callback_url w H.
    rewrite (extract_session_id_absent _ _ H). repeat split.
Qed.

Lemma extract_session_id_contract_unmarked :
  PyStr.contains session_marker callback_unmarked = false
  /\ extract_session_id_from_callback callback_unmarked
       (fresh_world (answers [] status_200))
     = (Ok None, fresh_world (answers [] status_200)).
Proof.
  split; [reflexivity|].
  exact (proj1 (proj2 extract_session_id_contract callback_unmarked
                  (fresh_world (answers [] status_200)) eq_refl)).
Defined.

Lemma before_amp (t : string) : before_first "&" (String "&" t) = EmptyString.
Proof.
  unfold before_first. rewrite PyStrFacts.find_unfold.
  cbn. now rewrite PyStrFacts.prefix_nil.
Qed.

Lemma before_keeps_head (stop : string) (c : ascii) (t : string) :
  prefix stop (String c t) = false ->
  exists t', before_first stop (String c t) = String c t'.
Proof.
  intros H. unfold before_first. rewrite PyStrFacts.find_unfold, H.
  destruct (PyStr.find stop t); cbn; now eexists.
Qed.

(** C9 (as stated) fails when the marker occurs more than once: in
    ["https://host/cb?session_id=abc&x=1&session_id=&y=2"] the second
    ["session_id="] is immediately followed by ["&"], and in
    ["https://host/cb?session_id=abc&session_id="] by the end of the
    string, yet the extraction returns and stores ["abc"], the text after
    the first marker. *)
Lemma empty_session_id_needs_first_marker :
  PyStr.contains (session_marker ++ "&") callback_twice_marked = true
  /\ (forall w, exists w',
        extract_session_id_from_callback callback_twice_marked w
        = (Ok (Some "abc"), w')
        /\ session_id (self w') = Some "abc")
  /\ callback_marked_at_end = "https://host/cb?session_id=abc&" ++ session_marker
  /\ (forall w, exists w',
        extract_session_id_from_callback callback_marked_at_end w
        = (Ok (Some "abc"), w')
        /\ session_id (self w') = Some "abc").
Proof.
  repeat apply conj; try reflexivity.
  - intros w.
    destruct (extract_session_id_found callback_twice_marked w eq_refl)
      as (w' & E & Hself & _).
    exists w'. rewrite E, Hself. split; reflexivity.
  - intros w.
    destruct (extract_session_id_found callback_marked_at_end w eq_refl)
      as (w' & E & Hself & _).
    exists w'. rewrite E, Hself. split; reflexivity.
Qed.

(** C9 (as amended): when the first ["session_id="] of the callback is
    immediately followed by ["&"] or by the end of the string, the
    extraction succeeds with the empty string: it returns [""], stores it
    as the session id and sets the authenticated flag.  Nothing checks
    that the id is not empty. *)
Theorem empty_session_id_accepted (callback_url : string) (w : world) :
  PyStr.contains session_marker callback_url = true ->
  after_first session_marker callback_url = EmptyString
  \/ (exists rest, after_first session_marker callback_url = String "&" rest) ->
  exists w',
    extract_session_id_from_callback callback_url w = (Ok (Some EmptyString), w')
    /\ session_id (self w') = Some EmptyString
    /\ authenticated (self w') = true.
Proof.
  intros H Hafter.
  destruct (extract_session_id_found callback_url w H) as (w' & E & Hself & _).
  assert (Hid : session_id_of callback_url = EmptyString).
  { unfold session_id_of. destruct Hafter as [->|[rest ->]].
    - reflexivity.
    - destruct (before_keeps_head session_marker "&" rest eq_refl) as [t' ->].
      apply before_amp. }
  exists w'. rewrite E, Hself, Hid. repeat split.
Qed.

Lemma empty_session_id_accepted_bare :
  exists w',
    extract_session_id_from_callback "https://host/cb?session_id="
      (fresh_world (answers [] status_200))
    = (Ok (Some EmptyString), w')
    /\ session_id (self w') = Some EmptyString
    /\ authenticated (self w') = true.
Proof.
  apply (empty_session_id_accepted "https://host/cb?session_id="
           (fresh_world (answers [] status_200)) eq_refl).
  left. reflexivity.
Defined.

(** ** Status codes *)

Lemma login_result_success (c : KiteMCPClient) (r : reply) :
  success (login_result c r) = true ->
  exists v, r = Respond 200 (Decodes v).
Proof.
  unfold login_result. destruct (classify c r) as [v|st|e] eqn:C;
    try discriminate.
  intros _. exists v. now apply classify_succeeded in C.
Qed.

Lemma advice_result_success
    (fq : value -> value -> value -> value -> outcome string)
    (age amount plan_type risk_level : value) (c : KiteMCPClient) (r : reply) :
  success (advice_result fq age amount plan_type risk_level c r) = true ->
  exists v, r = Respond 200 (Decodes v).
Proof.
  unfold advice_result. destruct (fq age amount plan_type risk_level);
    [|discriminate].
  destruct (classify c r) as [v|st|e] eqn:C; try discriminate.
  intros _. exists v. now apply classify_succeeded in C.
Qed.

(** ** The authentication state *)

(** C10: [initialize_connection] and [request_login] (and
    [get_portfolio_recommendation] as well) leave the stored session id
    and the authenticated flag as they were, whatever the endpoint does
    and however the operation ends; [extract_session_id_from_callback]
    does change them. *)
Theorem authentication_state_frame :
  (forall w,
      session_id (self (snd (initialize_connection w))) = session_id (self w)
      /\ authenticated (self (snd (initialize_connection w)))
         = authenticated (self w))
  /\ (forall w,
        session_id (self (snd (request_login w))) = session_id (self w)
        /\ authenticated (self (snd (request_login w)))
           = authenticated (self w))
  /\ (forall fq age amount plan_type risk_level w,
        self (snd (get_portfolio_recommendation fq age amount plan_type risk_level w))
        = self w)
  /\ (exists callback_url w,
        session_id (self (snd (extract_session_id_from_callback callback_url w)))
        <> session_id (self w)
        /\ authenticated (self (snd (extract_session_id_from_callback callback_url w)))
           <> authenticated (self w)).
Proof.
  repeat apply conj.
  - intros w.
    destruct (initialize_connection_run w) as (env & w' & E & Hself & _).
    rewrite E. cbn. now rewrite Hself.
  - intros w. destruct (request_login_run w) as (w' & E & Hself & _).
    rewrite E. cbn. now rewrite Hself.
  - intros fq age amount plan_type risk_level w.
    destruct (get_portfolio_recommendation_run fq age amount plan_type risk_level w)
      as (w' & E & Hself & _).
    now rewrite E.
  - exists callback_example, (fresh_world (answers [] status_200)).
    split; vm_compute; discriminate.
Qed.

(** * Further properties of the code *)

(** ** The retry loop: how many posts, which sleeps *)

Lemma range_length (n : Z) : length (range n) = Z.to_nat n.
Proof. unfold range. now rewrite length_map, length_seq. Qed.

Lemma classify_unsuccessful (c : KiteMCPClient) (r : reply) (v : value) :
  unsuccessful r -> classify c r <> Succeeded v.
Proof. intros H C. apply classify_succeeded in C as [_ ->]. now apply (H v). Qed.

Lemma classify_raising (c : KiteMCPClient) (r : reply) :
  session c <> None -> raising r -> exists e, classify c r = Faulted e.
Proof.
  unfold classify. destruct (session c); [intros _ | congruence].
  intros [e [-> | ->]]; now exists e.
Qed.

Lemma classify_no_session (c : KiteMCPClient) (r : reply) :
  session c = None -> exists e, classify c r = Faulted e.
Proof. unfold classify. intros ->. now eexists. Qed.

(** The loop stops at the first round that meets status 200 with a
    decodable body. *)
Lemma attempts_first_success (l : list Z) (w : world) (k : nat) (v : value) :
  session (self w) <> None ->
  (k < length l)%nat ->
  (forall j, (j < k)%nat -> unsuccessful (net w (length (sent w) + j))) ->
  net w (length (sent w) + k) = Respond 200 (Decodes v) ->
  exists w',
    attempts l w = (Ok (Some (handshake v)), w')
    /\ length (sent w') = (length (sent w) + k + 1)%nat.
Proof.
  revert w k; induction l as [|a l IH]; intros w k Hs Hk Hbad Hgood;
    [simpl in Hk; lia|].
  destruct (attempts_cons a l w) as (w1 & E & Hself & Hn & Hsent & _).
  assert (L : length (sent w1) = S (length (sent w)))
    by (rewrite Hsent, length_app, call_length by exact Hs; lia).
  destruct k as [|k].
  - rewrite Nat.add_0_r in Hgood.
    rewrite Hgood, (classify_ok _ _ Hs) in E.
    exists w1. split; [exact E | lia].
  - assert (B : unsuccessful (net w (length (sent w))))
      by (rewrite <- (Nat.add_0_r (length (sent w))); apply Hbad; lia).
    destruct (IH w1 k) as (w' & E' & L').
    + now rewrite Hself.
    + simpl in Hk; lia.
    + intros j Hj. rewrite Hn, L.
      replace (S (length (sent w)) + j)%nat with (length (sent w) + S j)%nat by lia.
      apply Hbad. lia.
    + rewrite Hn, L.
      now replace (S (length (sent w)) + k)%nat with (length (sent w) + S k)%nat by lia.
    + exists w'. split; [|lia].
      rewrite E.
      destruct (classify (self w) (net w (length (sent w)))) as [v0|st|e] eqn:C;
        [now apply classify_unsuccessful in C | exact E' | exact E'].
Qed.

(** Without such a round it runs them all and falls through. *)
Lemma attempts_no_success (l : list Z) (w : world) :
  session (self w) <> None ->
  (forall j, (j < length l)%nat -> unsuccessful (net w (length (sent w) + j))) ->
  exists w',
    attempts l w = (Ok None, w')
    /\ length (sent w') = (length (sent w) + length l)%nat.
Proof.
  revert w; induction l as [|a l IH]; intros w Hs Hbad.
  - exists w. split; [reflexivity | simpl; lia].
  - destruct (attempts_cons a l w) as (w1 & E & Hself & Hn & Hsent & _).
    assert (L : length (sent w1) = S (length (sent w)))
      by (rewrite Hsent, length_app, call_length by exact Hs; lia).
    assert (B : unsuccessful (net w (length (sent w))))
      by (rewrite <- (Nat.add_0_r (length (sent w))); apply Hbad; simpl; lia).
    destruct (IH w1) as (w' & E' & L').
    + now rewrite Hself.
    + intros j Hj. rewrite Hn, L.
      replace (S (length (sent w)) + j)%nat with (length (sent w) + S j)%nat by lia.
      apply Hbad. simpl; lia.
    + exists w'. split; [|simpl; lia].
      rewrite E.
      destruct (classify (self w) (net w (length (sent w)))) as [v0|st|e] eqn:C;
        [now apply classify_unsuccessful in C | exact E' | exact E'].
Qed.

(** X1: with an open session and [retry_count] at most 1025 (so that no
    backoff delay is beyond what [asyncio.sleep] takes), when round [k]
    (counted from 0, below [retry_count]) is the first whose post meets
    status 200 with a decodable body, [initialize_connection] returns the
    success envelope around that body and has posted exactly [k + 1]
    calls: no round runs after a success. *)
Theorem handshake_stops_at_first_success (w : world) (k : nat) (v : value) :
  session (self w) <> None ->
  retry_count (self w) <= 1025 ->
  Z.of_nat k < retry_count (self w) ->
  (forall j, (j < k)%nat -> unsuccessful (net w (length (sent w) + j))) ->
  net w (length (sent w) + k) = Respond 200 (Decodes v) ->
  exists w',
    initialize_connection w = (Ok (handshake v), w')
    /\ length (sent w') = (length (sent w) + k + 1)%nat.
Proof.
  intros Hs _ Hk Hbad Hgood.
  destruct (initialize_connection_loop w) as (w0 & S0 & T0 & U0 & _ & ->).
  destruct (attempts_first_success (range (retry_count (self w))) w0 k v)
    as (w' & -> & L).
  - now rewrite S0.
  - rewrite range_length. lia.
  - now rewrite T0, U0.
  - now rewrite T0, U0.
  - exists w'. split; [reflexivity | now rewrite <- U0].
Qed.

Lemma handshake_stops_at_first_success_second_round :
  exists w',
    initialize_connection (fresh_world (answers [status_500] status_200))
    = (Ok (handshake (VDict [])), w')
    /\ length (sent w') = 2%nat.
Proof.
  apply (handshake_stops_at_first_success
           (fresh_world (answers [status_500] status_200)) 1 (VDict [])).
  - discriminate.
  - cbn. lia.
  - reflexivity.
  - intros j Hj v. assert (j = O) by lia. subst. discriminate.
  - reflexivity.
Defined.

(** X2: with an open session and [retry_count] at most 1025 (so that no
    backoff delay is beyond what [asyncio.sleep] takes), when no round
    meets status 200 with a decodable body, [initialize_connection] posts
    exactly [retry_count] calls (none when [retry_count] is zero or
    negative) and returns the exhaustion envelope. *)
Theorem handshake_exhausts_retry_count (w : world) :
  session (self w) <> None ->
  retry_count (self w) <= 1025 ->
  (forall j, (j < Z.to_nat (retry_count (self w)))%nat ->
     unsuccessful (net w (length (sent w) + j))) ->
  exists w',
    initialize_connection w = (Ok exhausted, w')
    /\ length (sent w') = (length (sent w) + Z.to_nat (retry_count (self w)))%nat.
Proof.
  intros Hs _ Hbad.
  destruct (initialize_connection_loop w) as (w0 & S0 & T0 & U0 & _ & ->).
  destruct (attempts_no_success (range (retry_count (self w))) w0)
    as (w' & -> & L).
  - now rewrite S0.
  - rewrite range_length, T0, U0. exact Hbad.
  - exists w'. split; [reflexivity|]. now rewrite L, range_length, U0.
Qed.

Lemma handshake_exhausts_retry_count_three :
  exists w',
    initialize_connection (fresh_world (answers [] status_500))
    = (Ok exhausted, w')
    /\ length (sent w') = 3%nat.
Proof.
  apply (handshake_exhausts_retry_count (fresh_world (answers [] status_500))).
  - discriminate.
  - cbn. lia.
  - intros j _ v. destruct j; discriminate.
Defined.

Lemma subseq_refl {A : Type} (l : list A) : subseq l l.
Proof. induction l; constructor; assumption. Qed.

Lemma subseq_nil_l {A : Type} (l : list A) : subseq [] l.
Proof. induction l; constructor; assumption. Qed.

Lemma subseq_app_skip {A : Type} (b l1 l2 : list A) :
  subseq l1 l2 -> subseq l1 (b ++ l2).
Proof. intros H. induction b; simpl; [exact H | now constructor]. Qed.

Lemma subseq_app_keep {A : Type} (b l1 l2 : list A) :
  subseq l1 l2 -> subseq (b ++ l1) (b ++ l2).
Proof. intros H. induction b; simpl; [exact H | now constructor]. Qed.

Lemma subseq_length {A : Type} (l1 l2 : list A) :
  subseq l1 l2 -> (length l1 <= length l2)%nat.
Proof. induction 1; simpl; lia. Qed.

Lemma subseq_Forall {A : Type} (P : A -> Prop) (l1 l2 : list A) :
  subseq l1 l2 -> Forall P l2 -> Forall P l1.
Proof.
  induction 1; intros F; [constructor | |]; inversion F; subst; auto.
Qed.

(** Whatever the rounds meet, the sleeps of the loop are sleeps of the
    rounds that were to back off, in order. *)
Lemma attempts_sleeps (l : list Z) (w : world) :
  exists r w' new,
    attempts l w = (Ok r, w')
    /\ sleeps w' = (sleeps w ++ new)%list
    /\ subseq new (flat_map (fun a => backoff a (retry_count (self w))) l).
Proof.
  revert w; induction l as [|a l IH]; intros w.
  - exists None, w, []. cbn. repeat split; [now rewrite app_nil_r | constructor].
  - destruct (attempts_cons a l w) as (w1 & E & Hself & _ & _ & Hsl).
    destruct (IH w1) as (r & w' & new & E' & Hsl' & Hsub).
    rewrite Hself in Hsub. cbn [flat_map].
    destruct (classify (self w) (net w (length (sent w)))) as [v|st|e].
    + exists (Some (handshake v)), w1, []. repeat split; trivial.
      apply subseq_nil_l.
    + exists r, w', new. rewrite E, E', Hsl', Hsl, app_nil_r.
      repeat split. now apply subseq_app_skip.
    + exists r, w', (backoff a (retry_count (self w)) ++ new)%list.
      rewrite E, E', Hsl', Hsl, <- app_assoc.
      repeat split. now apply subseq_app_keep.
Qed.

(** When every round raises, they all sleep. *)
Lemma attempts_all_raise (l : list Z) (w : world) :
  session (self w) <> None ->
  (forall j, (j < length l)%nat -> raising (net w (length (sent w) + j))) ->
  exists w',
    attempts l w = (Ok None, w')
    /\ length (sent w') = (length (sent w) + length l)%nat
    /\ sleeps w'
       = (sleeps w ++ flat_map (fun a => backoff a (retry_count (self w))) l)%list.
Proof.
  revert w; induction l as [|a l IH]; intros w Hs Hbad.
  - exists w. cbn. repeat split; [lia | now rewrite app_nil_r].
  - destruct (attempts_cons a l w) as (w1 & E & Hself & Hn & Hsent & Hsl).
    assert (L : length (sent w1) = S (length (sent w)))
      by (rewrite Hsent, length_app, call_length by exact Hs; lia).
    destruct (classify_raising (self w) (net w (length (sent w))) Hs) as [e C].
    { rewrite <- (Nat.add_0_r (length (sent w))). apply Hbad. simpl; lia. }
    rewrite C in E, Hsl.
    destruct (IH w1) as (w' & E' & L' & Hsl').
    + now rewrite Hself.
    + intros j Hj. rewrite Hn, L.
      replace (S (length (sent w)) + j)%nat with (length (sent w) + S j)%nat by lia.
      apply Hbad. simpl; lia.
    + exists w'. rewrite E, E'. repeat split; [simpl; lia|].
      rewrite Hsl', Hsl, Hself, <- app_assoc. reflexivity.
Qed.

(** Without a session every round raises before it posts. *)
Lemma attempts_no_session (l : list Z) (w : world) :
  session (self w) = None ->
  exists w',
    attempts l w = (Ok None, w')
    /\ sent w' = sent w
    /\ sleeps w'
       = (sleeps w ++ flat_map (fun a => backoff a (retry_count (self w))) l)%list.
Proof.
  revert w; induction l as [|a l IH]; intros w Hs.
  - exists w. cbn. repeat split. now rewrite app_nil_r.
  - destruct (attempts_cons a l w) as (w1 & E & Hself & Hn & Hsent & Hsl).
    destruct (classify_no_session (self w) (net w (length (sent w))) Hs) as [e C].
    rewrite C in E, Hsl.
    destruct (IH w1) as (w' & E' & L' & Hsl'); [now rewrite Hself|].
    exists w'. rewrite E, E'. repeat split.
    + rewrite L', Hsent. unfold call. rewrite Hs. apply app_nil_r.
    + rewrite Hsl', Hsl, Hself, <- app_assoc. reflexivity.
Qed.

Lemma flat_map_singletons {A B : Type} (f : A -> list B) (g : A -> B) (l : list A) :
  Forall (fun x => f x = [g x]) l -> flat_map f l = map g l.
Proof. induction 1 as [|x l H _ IH]; simpl; [reflexivity | now rewrite H, IH]. Qed.

(** The rounds that back off are all but the last, and round [a] sleeps
    [2 ^ a]. *)
Lemma backoff_schedule (rc : Z) :
  flat_map (fun a => backoff a rc) (range rc) = schedule rc.
Proof.
  unfold schedule, range.
  destruct (Z.to_nat rc) as [|m] eqn:N.
  - replace (Z.to_nat (rc - 1)) with O by lia. reflexivity.
  - replace (Z.to_nat (rc - 1)) with m by lia.
    rewrite seq_S, map_app, flat_map_app. cbn [map flat_map Nat.add].
    unfold backoff at 2.
    replace (Z.of_nat m <? rc - 1) with false by (symmetry; apply Z.ltb_ge; lia).
    cbn. rewrite !app_nil_r, map_map.
    rewrite (flat_map_singletons _ (Z.pow 2)); [now rewrite map_map|].
    apply Forall_forall. intros a Ha. apply in_map_iff in Ha as (i & <- & Hi).
    apply in_seq in Hi. unfold backoff.
    now replace (Z.of_nat i <? rc - 1) with true by (symmetry; apply Z.ltb_lt; lia).
Qed.

Lemma schedule_length (rc : Z) : length (schedule rc) = Z.to_nat (rc - 1).
Proof. unfold schedule. now rewrite length_map, range_length. Qed.

Lemma schedule_powers (rc : Z) :
  Forall (fun d => exists a, 0 <= a < rc - 1 /\ d = 2 ^ a) (schedule rc).
Proof.
  unfold schedule, range. apply Forall_forall. intros d Hd.
  apply in_map_iff in Hd as (a & <- & Ha).
  apply in_map_iff in Ha as (i & <- & Hi). apply in_seq in Hi.
  exists (Z.of_nat i). split; [lia | reflexivity].
Qed.

(** X3: whatever the endpoint does, the sleeps of one
    [initialize_connection] are taken, in order, from [1, 2, 4, ...,
    2 ^ (retry_count - 2)]: there are at most [retry_count - 1] of them,
    each [2 ^ a] for a round [a] that is not the last, and none follows the
    last round. *)
Theorem handshake_sleeps_within_schedule (w : world) :
  exists env w' new,
    initialize_connection w = (Ok env, w')
    /\ sleeps w' = (sleeps w ++ new)%list
    /\ subseq new (schedule (retry_count (self w)))
    /\ (length new <= Z.to_nat (retry_count (self w) - 1))%nat
    /\ Forall (fun d => exists a, 0 <= a < retry_count (self w) - 1 /\ d = 2 ^ a) new.
Proof.
  destruct (initialize_connection_loop w) as (w0 & S0 & T0 & U0 & V0 & ->).
  destruct (attempts_sleeps (range (retry_count (self w))) w0)
    as (r & w' & new & -> & Hsl & Hsub).
  rewrite S0, backoff_schedule in Hsub. rewrite V0 in Hsl.
  assert (exists env, (match r with
                       | Some env => (Ok env, w')
                       | None => (Ok exhausted, w')
                       end) = (Ok env, w')) as [env ->]
    by (destruct r; now eexists).
  exists env, w', new. repeat split; trivial.
  - rewrite <- schedule_length. now apply subseq_length.
  - eapply subseq_Forall; [exact Hsub | apply schedule_powers].
Qed.

(** X4: with an open session, when every round raises (a transport fault,
    or a status 200 whose body cannot be decoded), the handshake posts
    [retry_count] calls, returns the exhaustion envelope, and has slept
    exactly [1, 2, ..., 2 ^ (retry_count - 2)]: once after every round but
    the last. *)
Theorem handshake_all_rounds_raise (w : world) :
  session (self w) <> None ->
  (forall j, (j < Z.to_nat (retry_count (self w)))%nat ->
     raising (net w (length (sent w) + j))) ->
  exists w',
    initialize_connection w = (Ok exhausted, w')
    /\ length (sent w') = (length (sent w) + Z.to_nat (retry_count (self w)))%nat
    /\ sleeps w' = (sleeps w ++ schedule (retry_count (self w)))%list.
Proof.
  intros Hs Hbad.
  destruct (initialize_connection_loop w) as (w0 & S0 & T0 & U0 & V0 & ->).
  destruct (attempts_all_raise (range (retry_count (self w))) w0)
    as (w' & -> & L & Hsl).
  - now rewrite S0.
  - rewrite range_length, T0, U0. exact Hbad.
  - exists w'. split; [reflexivity|].
    rewrite L, Hsl, range_length, U0, V0, S0, backoff_schedule. now split.
Qed.

Lemma handshake_all_rounds_raise_timeouts :
  exists w',
    initialize_connection
      (fresh_world (answers [] (Fault (Exn "TimeoutError" EmptyString))))
    = (Ok exhausted, w')
    /\ length (sent w') = 3%nat
    /\ sleeps w' = [1; 2].
Proof.
  apply (handshake_all_rounds_raise
           (fresh_world (answers [] (Fault (Exn "TimeoutError" EmptyString))))).
  - discriminate.
  - intros j _. exists (Exn "TimeoutError" EmptyString). left.
    now destruct j.
Defined.

(** X5: a client used outside [async with] has no session: every round
    of [initialize_connection] raises before it posts, so nothing is sent,
    the backoff sleeps are still performed, and the caller gets the
    exhaustion envelope, not the attribute error. *)
Theorem handshake_without_session (w : world) :
  session (self w) = None ->
  exists w',
    initialize_connection w = (Ok exhausted, w')
    /\ sent w' = sent w
    /\ sleeps w' = (sleeps w ++ schedule (retry_count (self w)))%list.
Proof.
  intros Hs.
  destruct (initialize_connection_loop w) as (w0 & S0 & T0 & U0 & V0 & ->).
  destruct (attempts_no_session (range (retry_count (self w))) w0)
    as (w' & -> & L & Hsl); [now rewrite S0|].
  exists w'. split; [reflexivity|].
  rewrite L, Hsl, U0, V0, S0, backoff_schedule. now split.
Qed.

Lemma handshake_without_session_new_client :
  exists w',
    initialize_connection (mkWorld new_client (answers [] status_200) [] [] [])
    = (Ok exhausted, w')
    /\ sent w' = []
    /\ sleeps w' = [1; 2].
Proof.
  apply (handshake_without_session
           (mkWorld new_client (answers [] status_200) [] [] [])).
  reflexivity.
Defined.

(** ** What the operations send, and what they do not look at *)

(** X6: with [retry_count] at most 1025 (so that no backoff delay is
    beyond what [asyncio.sleep] takes, the one thing in the loop that
    could raise past the inner handler), the envelope of
    [initialize_connection] is the success envelope around a decoded body
    or the fixed exhaustion envelope, nothing else: the text of the faults
    of the rounds never reaches the caller, and the handler of lines 88-90
    does not produce the result. *)
Theorem handshake_envelope_dichotomy (w : world) :
  retry_count (self w) <= 1025 ->
  exists env w',
    initialize_connection w = (Ok env, w')
    /\ (env = failure exhausted_message
        \/ exists v, env = {| success := true; data := optional v;
                              error := None; login_url := None |}).
Proof.
  intros _.
  destruct (initialize_connection_run w) as (env & w' & E & _ & _ & _ & H).
  exists env, w'. split; [exact E|].
  destruct H as [->|(n & v & _ & _ & ->)]; [now left | right; now exists v].
Qed.

Lemma handshake_envelope_dichotomy_timeouts :
  exists env w',
    initialize_connection
      (fresh_world (answers [] (Fault (Exn "TimeoutError" "timed out"))))
    = (Ok env, w')
    /\ (env = failure exhausted_message
        \/ exists v, env = {| success := true; data := optional v;
                              error := None; login_url := None |}).
Proof.
  apply (handshake_envelope_dichotomy
           (fresh_world (answers [] (Fault (Exn "TimeoutError" "timed out"))))).
  cbn. lia.
Defined.

Lemma call_repeat (c : KiteMCPClient) :
  exists k, call c init_payload = repeat (handshake_call c) k /\ (k <= 1)%nat.
Proof.
  unfold call. destruct (session c); [exists 1%nat | exists O]; split;
    trivial; lia.
Qed.

(** Every round posts the same call. *)
Lemma attempts_calls (l : list Z) (w : world) :
  exists r w' k,
    attempts l w = (Ok r, w')
    /\ sent w' = (sent w ++ repeat (handshake_call (self w)) k)%list
    /\ (k <= length l)%nat.
Proof.
  revert w; induction l as [|a l IH]; intros w.
  - exists None, w, O. cbn. repeat split; [now rewrite app_nil_r | lia].
  - destruct (attempts_cons a l w) as (w1 & E & Hself & _ & Hsent & _).
    destruct (call_repeat (self w)) as (k0 & Hk0 & Hle).
    destruct (IH w1) as (r & w' & k & E' & Hsent' & Hk).
    rewrite Hself, Hsent, Hk0, <- app_assoc, <- repeat_app in Hsent'.
    rewrite Hk0 in Hsent.
    destruct (classify (self w) (net w (length (sent w)))) as [v|st|e].
    + exists (Some (handshake v)), w1, k0. repeat split; trivial. simpl; lia.
    + exists r, w', (k0 + k)%nat. rewrite E. repeat split; trivial. simpl; lia.
    + exists r, w', (k0 + k)%nat. rewrite E. repeat split; trivial. simpl; lia.
Qed.

(** X7: every call the three operations post goes to [self.mcp_url] with
    content type [application/json]; the handshake posts one and the same
    call in every round, at most [retry_count] times; [request_login] and
    [get_portfolio_recommendation] post at most one call. *)
Theorem calls_go_to_mcp_url :
  (forall w, exists k,
      sent (snd (initialize_connection w))
      = (sent w ++ repeat {| post_url := mcp_url (self w);
                             post_json := init_payload;
                             post_content_type := "application/json" |} k)%list
      /\ (k <= Z.to_nat (retry_count (self w)))%nat)
  /\ (forall w, exists new,
        sent (snd (request_login w)) = (sent w ++ new)%list
        /\ (length new <= 1)%nat
        /\ Forall (fun p => post_url p = mcp_url (self w)
                            /\ post_json p = login_payload
                            /\ post_content_type p = "application/json") new)
  /\ (forall fq age amount plan_type risk_level w, exists new,
        sent (snd (get_portfolio_recommendation fq age amount plan_type risk_level w))
        = (sent w ++ new)%list
        /\ (length new <= 1)%nat
        /\ Forall (fun p => post_url p = mcp_url (self w)
                            /\ post_content_type p = "application/json") new).
Proof.
  repeat apply conj.
  - intros w.
    destruct (initialize_connection_loop w) as (w0 & S0 & T0 & U0 & _ & ->).
    destruct (attempts_calls (range (retry_count (self w))) w0)
      as (r & w' & k & -> & Hsent & Hk).
    exists k. rewrite range_length in Hk. rewrite S0, U0 in Hsent.
    split; [|exact Hk]. now destruct r.
  - intros w. destruct (request_login_run w) as (w' & E & _ & _ & Hsent & _).
    exists (call (self w) login_payload). rewrite E. split; [exact Hsent|].
    unfold call. destruct (session (self w)); cbn; split; try lia;
      repeat constructor.
  - intros fq age amount plan_type risk_level w.
    destruct (get_portfolio_recommendation_run fq age amount plan_type risk_level w)
      as (w' & E & _ & _ & Hsent & _).
    exists (advice_calls fq age amount plan_type risk_level (self w)).
    rewrite E. split; [exact Hsent|].
    unfold advice_calls, call.
    destruct (fq age amount plan_type risk_level); cbn;
      [|split; [lia | constructor]].
    destruct (session (self w)); cbn; split; try lia; repeat constructor.
Qed.

(** X8: [request_login] and [get_portfolio_recommendation] are single
    shots: whatever the one post meets, neither sleeps, and with an open
    session (and a query text that renders) each posts exactly one call,
    a failure included. *)
Theorem single_shot_operations :
  (forall w,
      sleeps (snd (request_login w)) = sleeps w
      /\ (session (self w) <> None ->
          length (sent (snd (request_login w))) = S (length (sent w))))
  /\ (forall fq age amount plan_type risk_level w,
        sleeps (snd (get_portfolio_recommendation fq age amount plan_type risk_level w))
        = sleeps w
        /\ (session (self w) <> None ->
            (exists q, fq age amount plan_type risk_level = Ok q) ->
            length (sent (snd (get_portfolio_recommendation
                                 fq age amount plan_type risk_level w)))
            = S (length (sent w)))).
Proof.
  split.
  - intros w. destruct (request_login_run w) as (w' & E & _ & _ & Hsent & Hsl).
    rewrite E. cbn. split; [exact Hsl|].
    intros Hs. rewrite Hsent, length_app, call_length by exact Hs. lia.
  - intros fq age amount plan_type risk_level w.
    destruct (get_portfolio_recommendation_run fq age amount plan_type risk_level w)
      as (w' & E & _ & _ & Hsent & Hsl).
    rewrite E. cbn. split; [exact Hsl|].
    intros Hs [q Hq]. rewrite Hsent. unfold advice_calls. rewrite Hq.
    rewrite length_app, call_length by exact Hs. lia.
Qed.

Lemma single_shot_operations_refused_login :
  length (sent (snd (request_login (fresh_world (answers [] status_500))))) = 1%nat.
Proof.
  apply (proj2 (proj1 single_shot_operations (fresh_world (answers [] status_500)))).
  discriminate.
Defined.

(** X9: when the query text cannot be rendered from the arguments,
    [get_portfolio_recommendation] posts nothing and returns a failure
    whose message is ["Portfolio recommendation error: "] followed by the
    text of the exception. *)
Theorem unrenderable_query_is_not_sent
    (fq : value -> value -> value -> value -> outcome string)
    (age amount plan_type risk_level : value) (e : exn) (w : world) :
  fq age amount plan_type risk_level = Raise e ->
  exists w',
    get_portfolio_recommendation fq age amount plan_type risk_level w
    = (Ok (failure ("Portfolio recommendation error: " ++ str_of_exn e)), w')
    /\ sent w' = sent w.
Proof.
  intros H.
  destruct (get_portfolio_recommendation_run fq age amount plan_type risk_level w)
    as (w' & E & _ & _ & Hsent & _).
  exists w'. rewrite E, Hsent. unfold advice_result, advice_calls. rewrite H.
  split; [reflexivity | apply app_nil_r].
Qed.

Lemma unrenderable_query_is_not_sent_bad_amount :
  exists w',
    get_portfolio_recommendation
      (fun _ amount _ _ =>
         match amount with
         | VInt _ | VFloat _ => Ok "query"
         | _ => Raise (Exn "ValueError" "Unknown format code 'f' for object of type 'str'")
         end)
      (VInt 30) (VStr "ten thousand") (VStr "SIP") (VStr "Medium")
      (fresh_world (answers [] status_200))
    = (Ok (failure ("Portfolio recommendation error: "
                    ++ "Unknown format code 'f' for object of type 'str'")), w')
    /\ sent w' = [].
Proof.
  apply (unrenderable_query_is_not_sent _ _ _ _ _
           (Exn "ValueError" "Unknown format code 'f' for object of type 'str'")).
  reflexivity.
Defined.

Lemma classify_same_session (c1 c2 : KiteMCPClient) (r : reply) :
  session c1 = session c2 -> classify c1 r = classify c2 r.
Proof.
  unfold classify. intros H.
  destruct (session c1), (session c2); congruence.
Qed.

Lemma call_same_session (c1 c2 : KiteMCPClient) (json : value) :
  session c1 = session c2 -> mcp_url c1 = mcp_url c2 ->
  call c1 json = call c2 json.
Proof.
  unfold call. intros H1 H2.
  destruct (session c1), (session c2); congruence.
Qed.

Lemma attempts_same_but_auth (l : list Z) (w1 w2 : world) :
  same_but_auth w1 w2 ->
  exists r w1' w2',
    attempts l w1 = (Ok r, w1')
    /\ attempts l w2 = (Ok r, w2')
    /\ same_but_auth w1' w2'.
Proof.
  revert w1 w2; induction l as [|a l IH]; intros w1 w2 H.
  - exists None, w1, w2. split; [reflexivity|]. split; [reflexivity | exact H].
  - destruct H as (Hs & Hu & Hrc & Hn & Hsent & Hsl).
    destruct (attempts_cons a l w1) as (u1 & E1 & A1 & B1 & C1 & D1).
    destruct (attempts_cons a l w2) as (u2 & E2 & A2 & B2 & C2 & D2).
    rewrite <- Hn, <- Hsent, <- (classify_same_session _ _ _ Hs) in E2, D2.
    rewrite <- Hrc, <- Hsl in D2.
    rewrite <- Hsent, <- (call_same_session _ _ _ Hs Hu) in C2.
    assert (Hu12 : same_but_auth u1 u2).
    { unfold same_but_auth. rewrite A1, A2, B1, B2, C1, C2, D1, D2.
      now repeat split. }
    destruct (IH u1 u2 Hu12) as (r & u1' & u2' & F1 & F2 & G).
    rewrite E1, E2.
    destruct (classify (self w1) (net w1 (length (sent w1)))) as [v|st|e].
    + now exists (Some (handshake v)), u1, u2.
    + now exists r, u1', u2'.
    + now exists r, u1', u2'.
Qed.

(** X10: no operation reads the stored session id or the authenticated
    flag.  Two clients that differ at most in these (and in the timeout and
    the log), facing the same endpoint, get the same envelope from each of
    the three operations, post the same calls and sleep the same: nothing
    of the session travels in a request, and no operation asks for
    authentication first. *)
Theorem operations_ignore_authentication (w1 w2 : world) :
  same_but_auth w1 w2 ->
  (fst (initialize_connection w1) = fst (initialize_connection w2)
   /\ sent (snd (initialize_connection w1)) = sent (snd (initialize_connection w2))
   /\ sleeps (snd (initialize_connection w1)) = sleeps (snd (initialize_connection w2)))
  /\ (fst (request_login w1) = fst (request_login w2)
      /\ sent (snd (request_login w1)) = sent (snd (request_login w2)))
  /\ (forall fq age amount plan_type risk_level,
        fst (get_portfolio_recommendation fq age amount plan_type risk_level w1)
        = fst (get_portfolio_recommendation fq age amount plan_type risk_level w2)
        /\ sent (snd (get_portfolio_recommendation fq age amount plan_type risk_level w1))
           = sent (snd (get_portfolio_recommendation fq age amount plan_type risk_level w2))).
Proof.
  intros H. pose proof H as (Hs & Hu & Hrc & Hn & Hsent & Hsl).
  repeat apply conj.
  - destruct (initialize_connection_loop w1) as (u1 & A1 & B1 & C1 & D1 & ->).
    destruct (initialize_connection_loop w2) as (u2 & A2 & B2 & C2 & D2 & ->).
    assert (Hu12 : same_but_auth u1 u2)
      by (unfold same_but_auth; rewrite A1, A2, B1, B2, C1, C2, D1, D2; exact H).
    destruct (attempts_same_but_auth (range (retry_count (self w1))) u1 u2 Hu12)
      as (r & u1' & u2' & F1 & F2 & G).
    rewrite <- Hrc, F1, F2. now destruct r.
  - destruct (initialize_connection_loop w1) as (u1 & A1 & B1 & C1 & D1 & ->).
    destruct (initialize_connection_loop w2) as (u2 & A2 & B2 & C2 & D2 & ->).
    assert (Hu12 : same_but_auth u1 u2)
      by (unfold same_but_auth; rewrite A1, A2, B1, B2, C1, C2, D1, D2; exact H).
    destruct (attempts_same_but_auth (range (retry_count (self w1))) u1 u2 Hu12)
      as (r & u1' & u2' & F1 & F2 & G).
    rewrite <- Hrc, F1, F2. destruct r; apply G.
  - destruct (initialize_connection_loop w1) as (u1 & A1 & B1 & C1 & D1 & ->).
    destruct (initialize_connection_loop w2) as (u2 & A2 & B2 & C2 & D2 & ->).
    assert (Hu12 : same_but_auth u1 u2)
      by (unfold same_but_auth; rewrite A1, A2, B1, B2, C1, C2, D1, D2; exact H).
    destruct (attempts_same_but_auth (range (retry_count (self w1))) u1 u2 Hu12)
      as (r & u1' & u2' & F1 & F2 & G).
    rewrite <- Hrc, F1, F2. destruct r; apply G.
  - destruct (request_login_run w1) as (u1 & -> & _).
    destruct (request_login_run w2) as (u2 & -> & _).
    cbn. unfold login_result.
    now rewrite Hn, Hsent, (classify_same_session _ _ _ Hs).
  - destruct (request_login_run w1) as (u1 & E1 & _ & _ & S1 & _).
    destruct (request_login_run w2) as (u2 & E2 & _ & _ & S2 & _).
    rewrite E1, E2. cbn.
    now rewrite S1, S2, Hsent, (call_same_session _ _ _ Hs Hu).
  - intros fq age amount plan_type risk_level.
    destruct (get_portfolio_recommendation_run fq age amount plan_type risk_level w1)
      as (u1 & E1 & _ & _ & S1 & _).
    destruct (get_portfolio_recommendation_run fq age amount plan_type risk_level w2)
      as (u2 & E2 & _ & _ & S2 & _).
    rewrite E1, E2. cbn. rewrite S1, S2. unfold advice_result, advice_calls.
    rewrite Hn, Hsent, (classify_same_session _ _ _ Hs).
    destruct (fq age amount plan_type risk_level) as [q|e]; [|now split].
    now rewrite (call_same_session _ _ _ Hs Hu).
Qed.

Lemma operations_ignore_authentication_signed_in :
  fst (request_login (fresh_world (answers [] status_200)))
  = fst (request_login
           (mkWorld (signed_in "abc123" (aenter new_client))
              (answers [] status_200) [] [] [])).
Proof.
  apply (operations_ignore_authentication
           (fresh_world (answers [] status_200))
           (mkWorld (signed_in "abc123" (aenter new_client))
              (answers [] status_200) [] [] [])).
  now repeat split.
Defined.

(** X11: in the single-shot operations a fault of the one post (a
    transport fault, or a status 200 whose body cannot be decoded) gives a
    failure whose message is the operation's prefix followed by the text
    of the exception; without a session the exception is the attribute
    error on [None], and nothing is posted. *)
Theorem single_shot_fault_messages :
  (forall w e,
      session (self w) <> None ->
      net w (length (sent w)) = Fault e
      \/ net w (length (sent w)) = Respond 200 (Undecodable e) ->
      exists w',
        request_login w
        = (Ok (failure ("Login request error: " ++ str_of_exn e)), w'))
  /\ (forall fq age amount plan_type risk_level q w e,
        fq age amount plan_type risk_level = Ok q ->
        session (self w) <> None ->
        net w (length (sent w)) = Fault e
        \/ net w (length (sent w)) = Respond 200 (Undecodable e) ->
        exists w',
          get_portfolio_recommendation fq age amount plan_type risk_level w
          = (Ok (failure ("Portfolio recommendation error: " ++ str_of_exn e)), w'))
  /\ (forall w,
        session (self w) = None ->
        exists w',
          request_login w
          = (Ok (failure ("Login request error: "
                          ++ "'NoneType' object has no attribute 'post'")), w')
          /\ sent w' = sent w).
Proof.
  repeat apply conj.
  - intros w e Hs Hn. destruct (request_login_run w) as (w' & E & _).
    exists w'. rewrite E. unfold login_result.
    destruct (classify_raising (self w) (net w (length (sent w))) Hs) as [e' C];
      [now exists e|].
    rewrite C. unfold classify in C.
    destruct (session (self w)); [|congruence].
    destruct Hn as [Hn|Hn]; rewrite Hn in C; injection C as <-; reflexivity.
  - intros fq age amount plan_type risk_level q w e Hq Hs Hn.
    destruct (get_portfolio_recommendation_run fq age amount plan_type risk_level w)
      as (w' & E & _).
    exists w'. rewrite E. unfold advice_result. rewrite Hq.
    destruct (classify_raising (self w) (net w (length (sent w))) Hs) as [e' C];
      [now exists e|].
    rewrite C. unfold classify in C.
    destruct (session (self w)); [|congruence].
    destruct Hn as [Hn|Hn]; rewrite Hn in C; injection C as <-; reflexivity.
  - intros w Hs. destruct (request_login_run w) as (w' & E & _ & _ & Hsent & _).
    exists w'. rewrite E, Hsent. unfold login_result, classify, call. rewrite Hs.
    split; [reflexivity | apply app_nil_r].
Qed.

Lemma single_shot_fault_messages_refused_connection :
  exists w',
    request_login
      (fresh_world (answers [] (Fault (Exn "ClientConnectorError" "Cannot connect to host"))))
    = (Ok (failure ("Login request error: " ++ "Cannot connect to host")), w').
Proof.
  apply (proj1 single_shot_fault_messages
           (fresh_world (answers [] (Fault (Exn "ClientConnectorError" "Cannot connect to host"))))
           (Exn "ClientConnectorError" "Cannot connect to host")).
  - discriminate.
  - now left.
Defined.

(** ** Cutting a text at its markers *)

Module Cut.
Import PyStr PyStrFacts.

Lemma app_empty_r (s : string) : s ++ EmptyString = s.
Proof. induction s as [|c s IH]; simpl; [reflexivity | now rewrite IH]. Qed.

Lemma contains_false (sep s : string) :
  contains sep s = false -> find sep s = None.
Proof. unfold contains. now destruct (find sep s). Qed.

Lemma find_contains (sep s : string) (i : nat) :
  find sep s = Some i -> contains sep s = true.
Proof. unfold contains. now intros ->. Qed.

(** A separator that fits in [x] is looked for in [x] alone. *)
Lemma prefix_long (sep x y : string) :
  (String.length sep <= String.length x)%nat ->
  prefix sep (x ++ y) = prefix sep x.
Proof.
  revert x; induction sep as [|c sep IH]; intros x L.
  - now rewrite !prefix_nil.
  - destruct x as [|d x]; [simpl in L; lia|]. simpl.
    destruct (ascii_dec c d); [|reflexivity].
    apply IH. simpl in L. lia.
Qed.

(** When no occurrence of the marker starts in [pre], the marker put
    after [pre] is the first one. *)
Lemma find_marker_after (init : string) (last : ascii) (pre t : string) :
  find (init ++ String last EmptyString) (pre ++ init) = None ->
  find (init ++ String last EmptyString)
    (pre ++ (init ++ String last EmptyString) ++ t)
  = Some (String.length pre).
Proof.
  set (sep := init ++ String last EmptyString).
  induction pre as [|c p IH]; intros H.
  - cbn [append]. rewrite find_unfold. now rewrite prefix_app.
  - cbn [append] in *. rewrite find_unfold in H. rewrite find_unfold.
    destruct (prefix sep (String c (p ++ init))) eqn:P; [discriminate|].
    destruct (find sep (p ++ init)) eqn:F; [discriminate|].
    assert (Q : prefix sep (String c (p ++ sep ++ t)) = false).
    { replace (String c (p ++ sep ++ t))
        with (String c (p ++ init) ++ (String last EmptyString ++ t)).
      - rewrite prefix_long; [exact P|].
        unfold sep. simpl. rewrite !length_app. simpl. lia.
      - unfold sep. simpl. f_equal. now rewrite !app_assoc. }
    rewrite Q, (IH eq_refl). reflexivity.
Qed.

Lemma take_app_length (a b : string) : take (String.length a) (a ++ b) = a.
Proof. induction a as [|c a IH]; simpl; [now destruct b | now rewrite IH]. Qed.

Lemma drop_app_length (a b : string) : drop (String.length a) (a ++ b) = b.
Proof. induction a as [|c a IH]; simpl; [reflexivity | exact IH]. Qed.

Lemma take_all (s : string) : take (String.length s) s = s.
Proof. induction s as [|c s IH]; simpl; [reflexivity | now rewrite IH]. Qed.

Lemma after_first_at (sep pre t : string) :
  find sep (pre ++ sep ++ t) = Some (String.length pre) ->
  after_first sep (pre ++ sep ++ t) = t.
Proof.
  unfold after_first. intros ->.
  now rewrite <- drop_drop, drop_app_length, drop_app_length.
Qed.

Lemma before_first_at (sep pre t : string) :
  find sep (pre ++ sep ++ t) = Some (String.length pre) ->
  before_first sep (pre ++ sep ++ t) = pre.
Proof. unfold before_first. intros ->. apply take_app_length. Qed.

Lemma before_first_absent (sep s : string) :
  contains sep s = false -> before_first sep s = s.
Proof. unfold before_first. intros H. now rewrite (contains_false _ _ H). Qed.

(** The text before a one-character stop. *)
Lemma before_first_char (c : ascii) (a rest : string) :
  contains (String c EmptyString) a = false ->
  before_first (String c EmptyString) (a ++ String c rest) = a.
Proof.
  intros H.
  apply (before_first_at (String c EmptyString) a rest).
  apply (find_marker_after EmptyString c a rest).
  cbn [append]. rewrite app_empty_r. now apply contains_false.
Qed.

(** A piece cut off before a separator does not hold it... *)
Lemma before_first_free (sep s : string) :
  sep <> EmptyString -> contains sep (before_first sep s) = false.
Proof.
  intros Hsep. unfold before_first, contains.
  destruct (find sep s) as [i|] eqn:F.
  - now rewrite (find_take_none sep s i Hsep F).
  - now rewrite F.
Qed.

(** ...and neither does any beginning of a text that does not. *)
Lemma contains_take (sep s : string) (i : nat) :
  contains sep s = false -> contains sep (take i s) = false.
Proof.
  intros H. apply contains_false in H. unfold contains.
  destruct (find sep (take i s)) as [j|] eqn:G; [|reflexivity].
  exfalso.
  pose proof (find_bound _ _ _ G) as B.
  pose proof (length_take_le i s) as L.
  pose proof (find_none sep s j H) as N.
  apply find_prefix in G.
  rewrite (drop_take i j s) in N by lia.
  now rewrite (prefix_app_r _ _ _ G) in N.
Qed.

Lemma before_first_take (sep s : string) :
  exists i, before_first sep s = take i s.
Proof.
  unfold before_first. destruct (find sep s) as [i|].
  - now exists i.
  - exists (String.length s). symmetry. apply take_all.
Qed.

(** What the two cuts of the code give on a text assembled around [x]:
    [pre], the marker, [x], then nothing or the stop and more. *)
Lemma cut_round_trip (init : string) (last stop : ascii) (pre x tail : string) :
  contains (init ++ String last EmptyString) (pre ++ init) = false ->
  contains (init ++ String last EmptyString) (x ++ tail) = false ->
  contains (String stop EmptyString) x = false ->
  tail = EmptyString \/ (exists rest, tail = String stop rest) ->
  before_first (String stop EmptyString)
    (before_first (init ++ String last EmptyString)
       (after_first (init ++ String last EmptyString)
          (pre ++ (init ++ String last EmptyString) ++ x ++ tail)))
  = x.
Proof.
  intros H1 H2 H3 H4.
  rewrite after_first_at
    by (apply find_marker_after; now apply contains_false).
  rewrite (before_first_absent _ _ H2).
  destruct H4 as [->|[rest ->]].
  - rewrite app_empty_r. now apply before_first_absent.
  - now apply before_first_char.
Qed.

(** ** [strip] *)

Lemma lstrip_head (s : string) :
  lstrip s = EmptyString
  \/ exists c t, lstrip s = String c t /\ isspace c = false.
Proof.
  induction s as [|c s IH]; simpl; [now left|].
  destruct (isspace c) eqn:E; [exact IH | right; now exists c, s].
Qed.

Lemma lstrip_fixed (c : ascii) (t : string) :
  isspace c = false -> lstrip (String c t) = String c t.
Proof. simpl. now intros ->. Qed.

Lemma rstrip_head (c : ascii) (t : string) :
  isspace c = false -> exists t', rstrip (String c t) = String c t'.
Proof.
  intros H. simpl. destruct (rstrip t); [rewrite H|]; now eexists.
Qed.

Lemma rstrip_idempotent (s : string) : rstrip (rstrip s) = rstrip s.
Proof.
  induction s as [|c s IH]; [reflexivity|].
  simpl. destruct (rstrip s) as [|d t'] eqn:E.
  - destruct (isspace c) eqn:Sc; [reflexivity|]. simpl. now rewrite Sc.
  - change (rstrip (String c (String d t'))
            = String c (String d t')).
    cbn [rstrip]. cbn [rstrip] in IH. now rewrite IH.
Qed.

(** A stripped text is left alone by [strip]. *)
Lemma strip_idempotent (s : string) : strip (strip s) = strip s.
Proof.
  unfold strip.
  destruct (lstrip_head s) as [->|(c & t & -> & Hc)]; [reflexivity|].
  destruct (rstrip_head c t Hc) as [t' E]. rewrite E.
  rewrite (lstrip_fixed c t' Hc), <- E. apply rstrip_idempotent.
Qed.

End Cut.

(** ** The answers [request_login] does not accept *)

Lemma find_login_url_unrecognised (d : list (string * value)) :
  unrecognised d -> find_login_url (VDict d) = Ok None.
Proof.
  intros H. unfold find_login_url.
  destruct H as [d H1 | d r H1 H2 | d r content H1 H2 H3 | d r f rest text H1 H2 H3 H4];
    cbn; rewrite H1; cbn; try reflexivity; rewrite H2; cbn; try reflexivity.
  - now rewrite H3.
  - unfold text_of in H3. rewrite H3. unfold extract_login_url. cbn.
    now rewrite H4.
Qed.

Lemma find_login_url_ill_typed (v : value) :
  ill_typed v -> exists e, find_login_url v = Raise e.
Proof.
  intros H. unfold find_login_url.
  destruct H as [v H | d r x rest H1 H2 H3 | d r f rest H1 H2 H3].
  - destruct v; try contradiction; cbn; now eexists.
  - cbn. rewrite H1. cbn. rewrite H2. cbn.
    destruct x; try contradiction; cbn; now eexists.
  - cbn. rewrite H1. cbn. rewrite H2. cbn.
    unfold text_of in H3. unfold extract_login_url.
    destruct (Py.lookup "text" f) as [x|]; [|contradiction].
    destruct x; try contradiction; cbn; now eexists.
Qed.

(** X12: a status 200 whose decoded object has no ["result"], or no
    ["content"] in it, or a content that is not a non-empty list, or a
    first text (the empty string when the element has none) without the
    login domain, makes [request_login] return the failure
    ["Invalid response format"]; nothing is raised and nothing is
    retried. *)
Theorem unrecognised_login_response (w : world) (d : list (string * value)) :
  session (self w) <> None ->
  net w (length (sent w)) = Respond 200 (Decodes (VDict d)) ->
  unrecognised d ->
  exists w',
    request_login w = (Ok (failure "Invalid response format"), w')
    /\ length (sent w') = S (length (sent w)).
Proof.
  intros Hs Hn Hd. destruct (request_login_run w) as (w' & E & _ & _ & Hsent & _).
  exists w'. rewrite E, Hn, Hsent. unfold login_result.
  rewrite (classify_ok _ _ Hs), (find_login_url_unrecognised d Hd).
  split; [reflexivity|]. rewrite length_app, call_length by exact Hs. lia.
Qed.

Lemma unrecognised_login_response_empty_object :
  exists w',
    request_login (fresh_world (answers [] status_200))
    = (Ok (failure "Invalid response format"), w')
    /\ length (sent w') = 1%nat.
Proof.
  apply (unrecognised_login_response (fresh_world (answers [] status_200)) []).
  - discriminate.
  - reflexivity.
  - now apply no_result.
Defined.

(** X13: a status 200 whose decoded value has the wrong types (a null,
    boolean or number instead of the object; a first content element that
    is not an object; a null, boolean or number as its text) makes the
    walk raise, and [request_login] returns a failure whose message is
    ["Login request error: "] followed by the text of the exception, not
    ["Invalid response format"]. *)
Theorem ill_typed_login_response (w : world) (v : value) :
  session (self w) <> None ->
  net w (length (sent w)) = Respond 200 (Decodes v) ->
  ill_typed v ->
  exists e w',
    request_login w
    = (Ok (failure ("Login request error: " ++ str_of_exn e)), w').
Proof.
  intros Hs Hn Hv. destruct (request_login_run w) as (w' & E & _).
  destruct (find_login_url_ill_typed v Hv) as [e F].
  exists e, w'. rewrite E, Hn. unfold login_result.
  now rewrite (classify_ok _ _ Hs), F.
Qed.

Lemma ill_typed_login_response_null :
  exists e w',
    request_login (fresh_world (answers [] (Respond 200 (Decodes VNone))))
    = (Ok (failure ("Login request error: " ++ str_of_exn e)), w').
Proof.
  apply (ill_typed_login_response
           (fresh_world (answers [] (Respond 200 (Decodes VNone)))) VNone).
  - discriminate.
  - reflexivity.
  - now apply scalar_response.
Defined.

Lemma login_result_success_shape (c : KiteMCPClient) (r : reply) :
  success (login_result c r) = true ->
  exists s,
    login_result c r = {| success := true; data := None; error := None;
                          login_url := Some (PyStr.strip s) |}.
Proof.
  unfold login_result.
  destruct (classify c r) as [v|st|e]; try discriminate.
  destruct (find_login_url v) as [[u|]|e]; try discriminate.
  destruct u; try discriminate. cbn. intros _. now eexists.
Qed.

(** X14: whenever [request_login] succeeds, the envelope carries a login
    URL and nothing else (no data, no error), and the URL is trimmed:
    stripping it again changes nothing. *)
Theorem login_success_is_trimmed (w : world) (env : MCPResponse) (w' : world) :
  request_login w = (Ok env, w') ->
  success env = true ->
  exists s,
    login_url env = Some s
    /\ PyStr.strip s = s
    /\ data env = None
    /\ error env = None.
Proof.
  intros E Hs. destruct (request_login_run w) as (w1 & E1 & _).
  rewrite E in E1. injection E1 as -> _.
  destruct (login_result_success_shape _ _ Hs) as [s ->].
  exists (PyStr.strip s). repeat split. apply Cut.strip_idempotent.
Qed.

Lemma login_success_is_trimmed_padded :
  exists s,
    login_url {| success := true; data := None; error := None;
                 login_url := Some login_domain |} = Some s
    /\ PyStr.strip s = s.
Proof.
  destruct (login_success_is_trimmed
              (fresh_world (answers [] (Respond 200
                 (Decodes (login_response ("  " ++ login_domain ++ " "))))))
              {| success := true; data := None; error := None;
                 login_url := Some login_domain |}
              (snd (request_login
                      (fresh_world (answers [] (Respond 200
                         (Decodes (login_response ("  " ++ login_domain ++ " "))))))))
              eq_refl eq_refl) as (s & H1 & H2 & _).
  exists s. split; [exact H1 | exact H2].
Defined.

(** ** Round trips through the two extractions *)

Lemma contains_inside (sub a u b : string) :
  PyStr.contains sub u = true -> PyStr.contains sub (a ++ u ++ b) = true.
Proof.
  unfold PyStr.contains at 1.
  destruct (PyStr.find sub u) as [i|] eqn:F; [intros _ | discriminate].
  rewrite (PyStrFacts.find_occurrence sub u i F).
  rewrite !PyStrFacts.app_assoc, <- (PyStrFacts.app_assoc a).
  apply PyStrFacts.contains_app.
Qed.

(** X15: a login text assembled as [pre], ["URL: "], [u], then nothing or
    a line break and more, gives back exactly [u], provided [u] holds the
    login domain and no line break, no marker starts in [pre], and none
    occurs from [u] on; [request_login] returns [u] stripped. *)
Theorem login_url_round_trip (pre u tail : string) :
  PyStr.contains login_domain u = true ->
  PyStr.contains url_marker (pre ++ "URL:") = false ->
  PyStr.contains url_marker (u ++ tail) = false ->
  PyStr.contains PyStr.nl u = false ->
  tail = EmptyString \/ (exists rest, tail = PyStr.nl ++ rest) ->
  extract_login_url (VStr (pre ++ url_marker ++ u ++ tail)) = Ok (Some (VStr u))
  /\ (forall w,
        session (self w) <> None ->
        net w (length (sent w))
        = Respond 200 (Decodes (login_response (pre ++ url_marker ++ u ++ tail))) ->
        exists w',
          request_login w
          = (Ok {| success := true; data := None; error := None;
                   login_url := Some (PyStr.strip u) |}, w')).
Proof.
  intros Hd H1 H2 H3 H4.
  assert (Hdom : PyStr.contains login_domain (pre ++ url_marker ++ u ++ tail) = true).
  { rewrite <- (PyStrFacts.app_assoc url_marker u tail),
      <- (PyStrFacts.app_assoc pre (url_marker ++ u) tail),
      <- (PyStrFacts.app_assoc pre url_marker u).
    rewrite (PyStrFacts.app_assoc (pre ++ url_marker) u tail).
    now apply contains_inside. }
  assert (Hurl : login_url_of (pre ++ url_marker ++ u ++ tail) = u).
  { unfold login_url_of. rewrite PyStrFacts.contains_app.
    apply (Cut.cut_round_trip "URL:" " " (ascii_of_nat 10) pre u tail H1 H2 H3).
    destruct H4 as [->|[rest ->]]; [now left | right; now exists rest]. }
  split.
  - now rewrite (extract_login_url_text _ Hdom), Hurl.
  - intros w Hs Hn.
    destruct (request_login_strips w _ _ _ _ _ Hs Hn eq_refl eq_refl eq_refl Hdom)
      as [w' E].
    exists w'. now rewrite E, Hurl.
Qed.

Lemma login_url_round_trip_example :
  extract_login_url (VStr login_example)
  = Ok (Some (VStr "https://kite.zerodha.com/connect/login?x=1")).
Proof.
  apply (login_url_round_trip "Please login. "
           "https://kite.zerodha.com/connect/login?x=1"
           (PyStr.nl ++ "more text")); try reflexivity.
  right. now exists "more text".
Defined.

(** X16: a callback assembled as [base], ["session_id="], [id], then
    nothing or ["&"] and more, gives back exactly [id], and [id] is what
    the client stores, provided [id] holds no ["&"], no marker starts in
    [base], and none occurs from [id] on. *)
Theorem session_id_round_trip (base id tail : string) (w : world) :
  PyStr.contains session_marker (base ++ "session_id") = false ->
  PyStr.contains session_marker (id ++ tail) = false ->
  PyStr.contains "&" id = false ->
  tail = EmptyString \/ (exists rest, tail = "&" ++ rest) ->
  exists w',
    extract_session_id_from_callback (base ++ session_marker ++ id ++ tail) w
    = (Ok (Some id), w')
    /\ session_id (self w') = Some id
    /\ authenticated (self w') = true.
Proof.
  intros H1 H2 H3 H4.
  destruct (extract_session_id_found (base ++ session_marker ++ id ++ tail) w)
    as (w' & E & Hself & _); [apply PyStrFacts.contains_app|].
  assert (Hid : session_id_of (base ++ session_marker ++ id ++ tail) = id).
  { unfold session_id_of.
    apply (Cut.cut_round_trip "session_id" "=" "&" base id tail H1 H2 H3).
    destruct H4 as [->|[rest ->]]; [now left | right; now exists rest]. }
  exists w'. rewrite E, Hself, Hid. now repeat split.
Qed.

Lemma session_id_round_trip_example :
  exists w',
    extract_session_id_from_callback callback_example
      (fresh_world (answers [] status_200))
    = (Ok (Some "abc123"), w')
    /\ session_id (self w') = Some "abc123"
    /\ authenticated (self w') = true.
Proof.
  apply (session_id_round_trip "https://host/cb?status=success&" "abc123"
           "&foo=bar" (fresh_world (answers [] status_200))); try reflexivity.
  right. now exists "foo=bar".
Defined.

Lemma session_id_of_clean (callback_url : string) :
  PyStr.contains "&" (session_id_of callback_url) = false
  /\ PyStr.contains session_marker (session_id_of callback_url) = false.
Proof.
  unfold session_id_of. split.
  - apply Cut.before_first_free. discriminate.
  - destruct (Cut.before_first_take "&"
                (before_first session_marker
                   (after_first session_marker callback_url))) as [i ->].
    apply Cut.contains_take, Cut.before_first_free. discriminate.
Qed.

(** X17: whatever the callback, an id that
    [extract_session_id_from_callback] returns holds neither ["&"] nor
    ["session_id="], and it is the id the client stores, with the
    authenticated flag set; the extraction posts nothing and does not
    sleep. *)
Theorem extracted_session_id_is_clean
    (callback_url : string) (w : world) (id : string) (w' : world) :
  extract_session_id_from_callback callback_url w = (Ok (Some id), w') ->
  PyStr.contains "&" id = false
  /\ PyStr.contains session_marker id = false
  /\ session_id (self w') = Some id
  /\ authenticated (self w') = true
  /\ sent w' = sent w
  /\ sleeps w' = sleeps w.
Proof.
  intros E.
  destruct (PyStr.contains session_marker callback_url) eqn:C.
  - destruct (extract_session_id_found callback_url w C)
      as (w1 & E1 & Hself & _ & Hsent & Hsl).
    rewrite E in E1. injection E1 as -> ->.
    destruct (session_id_of_clean callback_url) as [A B].
    rewrite Hself. now repeat split.
  - rewrite (extract_session_id_absent callback_url w C) in E. discriminate.
Qed.

Lemma extracted_session_id_is_clean_example :
  PyStr.contains "&" "abc123" = false
  /\ PyStr.contains session_marker "abc123" = false.
Proof.
  destruct (extracted_session_id_is_clean callback_example
              (fresh_world (answers [] status_200)) "abc123"
              (snd (extract_session_id_from_callback callback_example
                      (fresh_world (answers [] status_200))))
              eq_refl) as (A & B & _).
  now split.
Defined.

(** X18: the client has no way back.  Through every operation (the three
    requests, and the extraction on any callback) a set authenticated flag
    stays set and a stored session id stays stored; only another
    extraction replaces the id. *)
Theorem authentication_is_never_cleared (w : world) :
  authenticated (self w) = true ->
  session_id (self w) <> None ->
  (authenticated (self (snd (initialize_connection w))) = true
   /\ session_id (self (snd (initialize_connection w))) = session_id (self w))
  /\ (authenticated (self (snd (request_login w))) = true
      /\ session_id (self (snd (request_login w))) = session_id (self w))
  /\ (forall fq age amount plan_type risk_level,
        authenticated
          (self (snd (get_portfolio_recommendation fq age amount plan_type risk_level w)))
        = true
        /\ session_id
             (self (snd (get_portfolio_recommendation fq age amount plan_type risk_level w)))
           = session_id (self w))
  /\ (forall callback_url,
        authenticated
          (self (snd (extract_session_id_from_callback callback_url w))) = true
        /\ session_id
             (self (snd (extract_session_id_from_callback callback_url w))) <> None).
Proof.
  intros Ha Hid. repeat apply conj.
  - destruct (initialize_connection_run w) as (env & w' & E & Hself & _).
    rewrite E. cbn. now rewrite Hself.
  - destruct (initialize_connection_run w) as (env & w' & E & Hself & _).
    rewrite E. cbn. now rewrite Hself.
  - destruct (request_login_run w) as (w' & E & Hself & _).
    rewrite E. cbn. now rewrite Hself.
  - destruct (request_login_run w) as (w' & E & Hself & _).
    rewrite E. cbn. now rewrite Hself.
  - intros fq age amount plan_type risk_level.
    destruct (get_portfolio_recommendation_run fq age amount plan_type risk_level w)
      as (w' & E & Hself & _).
    rewrite E. cbn. now rewrite Hself.
  - intros callback_url.
    destruct (PyStr.contains session_marker callback_url) eqn:C.
    + destruct (extract_session_id_found callback_url w C) as (w' & E & Hself & _).
      rewrite E. cbn. rewrite Hself. now split.
    + rewrite (extract_session_id_absent callback_url w C). now split.
Qed.

Lemma authentication_is_never_cleared_unmarked :
  authenticated
    (self (snd (extract_session_id_from_callback callback_unmarked
                  (mkWorld (signed_in "abc123" (aenter new_client))
                     (answers [] status_200) [] [] [])))) = true.
Proof.
  apply (authentication_is_never_cleared
           (mkWorld (signed_in "abc123" (aenter new_client))
              (answers [] status_200) [] [] [])).
  - reflexivity.
  - discriminate.
Defined.

(** ** The connection coroutine of the application *)

(** The handshake of a freshly entered client. *)
Lemma fresh_handshake (n : nat -> reply) :
  exists env w1 k,
    initialize_connection (fresh_world n) = (Ok env, w1)
    /\ self w1 = aenter new_client
    /\ net w1 = n
    /\ sent w1 = repeat (handshake_call (aenter new_client)) k
    /\ (env = exhausted \/ ((exists v, env = handshake v) /\ (1 <= k)%nat)).
Proof.
  destruct (initialize_connection_run (fresh_world n))
    as (env & w1 & E & Hself & Hnet & _ & H).
  destruct (initialize_connection_loop (fresh_world n))
    as (w0 & S0 & T0 & U0 & _ & E0).
  destruct (attempts_calls (range (retry_count (self (fresh_world n)))) w0)
    as (r & w' & k & Ea & Hsent & _).
  rewrite Ea in E0. rewrite E in E0.
  assert (w1 = w') by (destruct r; now injection E0).
  subst w'. rewrite S0, U0 in Hsent.
  exists env, w1, k. repeat split; trivial.
  destruct H as [->|(i & v & Hi & _ & ->)]; [now left | right].
  split; [now exists v|].
  rewrite Hsent in Hi. cbn in Hi. rewrite repeat_length in Hi. lia.
Qed.

Lemma aexit_closed (w : world) :
  session (self w) <> None -> session_closed (aexit w) = true.
Proof. unfold aexit. cbn. now destruct (session (self w)). Qed.

Lemma truthy_nonempty (o : option string) :
  truthy o = true -> exists s, o = Some s /\ s <> EmptyString.
Proof.
  destruct o as [[|c s]|]; try discriminate. intros _. now eexists.
Qed.

Lemma initialize_kite_mcp_unfold {R : Type} (n : nat -> reply)
    (st : App.session_state R) (env : MCPResponse) (w1 : world) :
  initialize_connection (fresh_world n) = (Ok env, w1) ->
  initialize_kite_mcp n st
  = if negb (success env) then
      (((false, "Connection failed: " ++ str_of_optional (error env)), st),
       aexit w1)
    else
      match request_login w1 with
      | (Ok login_response, w2) =>
          ((if success login_response && truthy (login_url login_response)
            then ((true, "Connection successful"),
                  App.mkState (App.authenticated st) (login_url login_response)
                    (App.portfolio_result st))
            else ((false, "Login request failed: "
                          ++ str_of_optional (error login_response)), st)),
           aexit w2)
      | (Raise e, w2) => (((false, "Error: " ++ str_of_exn e), st), aexit w2)
      end.
Proof.
  intros E.
  unfold initialize_kite_mcp, async_with, initialize_kite_mcp_body, bind.
  rewrite E. destruct (negb (success env)); [reflexivity|].
  destruct (request_login w1) as [[login_response|e] w2]; [|reflexivity].
  now destruct (success login_response && truthy (login_url login_response)).
Qed.

(** What [initialize_kite_mcp] comes to: the handshake of a fresh client,
    then, if it succeeded, one login on the same client. *)
Lemma initialize_kite_mcp_run {R : Type} (n : nat -> reply)
    (st : App.session_state R) :
  exists k w1,
    sent w1 = repeat (handshake_call (aenter new_client)) k
    /\ ((initialize_kite_mcp n st
         = (((false, "Connection failed: " ++ exhausted_message), st), aexit w1)
         /\ session (self w1) <> None)
        \/ exists w2,
             sent w2 = (sent w1 ++ call (aenter new_client) login_payload)%list
             /\ (1 <= k)%nat
             /\ session (self w2) <> None
             /\ initialize_kite_mcp n st
                = ((if success (login_result (aenter new_client) (n k))
                       && truthy (login_url (login_result (aenter new_client) (n k)))
                    then ((true, "Connection successful"),
                          App.mkState (App.authenticated st)
                            (login_url (login_result (aenter new_client) (n k)))
                            (App.portfolio_result st))
                    else ((false, "Login request failed: "
                                  ++ str_of_optional
                                       (error (login_result (aenter new_client) (n k)))),
                          st)),
                   aexit w2)).
Proof.
  destruct (fresh_handshake n) as (env & w1 & k & E & Hself & Hnet & Hsent & H).
  exists k, w1. split; [exact Hsent|].
  rewrite (initialize_kite_mcp_unfold n st env w1 E).
  destruct H as [->|[[v ->] Hk]].
  - left. cbn. rewrite Hself. split; [reflexivity | discriminate].
  - right. cbn [success handshake negb].
    destruct (request_login_run w1) as (w2 & E2 & Hself2 & _ & Hsent2 & _).
    exists w2. rewrite Hself in Hsent2.
    split; [exact Hsent2|]. split; [exact Hk|].
    split; [rewrite Hself2, Hself; discriminate|].
    rewrite E2, Hself, Hnet, Hsent, repeat_length. reflexivity.
Qed.

(** The outcome of [initialize_kite_mcp], whatever the endpoint does. *)
Lemma initialize_kite_mcp_outcome {R : Type} (n : nat -> reply)
    (st : App.session_state R) :
  exists ok msg st' rel,
    initialize_kite_mcp n st = (((ok, msg), st'), rel)
    /\ session_closed rel = true
    /\ App.authenticated st' = App.authenticated st
    /\ App.portfolio_result st' = App.portfolio_result st
    /\ (if ok : bool then
          msg = "Connection successful"
          /\ (exists s, App.login_url st' = Some s
                        /\ s <> EmptyString /\ PyStr.strip s = s)
          /\ (2 <= length (sent (final rel)))%nat
        else st' = st).
Proof.
  destruct (initialize_kite_mcp_run n st)
    as (k & w1 & Hsent & [[E Hs] | (w2 & Hsent2 & Hk & Hs & E)]).
  - eexists _, _, _, _. split; [exact E|].
    repeat split. now apply aexit_closed.
  - destruct (success (login_result (aenter new_client) (n k))
              && truthy (login_url (login_result (aenter new_client) (n k)))) eqn:C.
    + eexists _, _, _, _. split; [exact E|].
      apply andb_prop in C as [C1 C2].
      destruct (login_result_success_shape _ _ C1) as [s Hshape].
      rewrite Hshape in *. cbn in C2 |- *.
      repeat split; [now apply aexit_closed | |].
      * exists (PyStr.strip s). repeat split.
        -- intros Z. now rewrite Z in C2.
        -- apply Cut.strip_idempotent.
      * rewrite Hsent2, Hsent, length_app, repeat_length. cbn. lia.
    + eexists _, _, _, _. split; [exact E|].
      repeat split. now apply aexit_closed.
Qed.

(** X19: [initialize_kite_mcp] stores a login URL exactly when it returns
    [True]: then the stored URL is non-empty and trimmed and the message is
    ["Connection successful"]; when it returns [False] the session state
    is left as it was.  Either way the authenticated flag and the stored
    calculator result are untouched, and the client's session is closed
    on exit. *)
Theorem connect_stores_url_on_success {R : Type} (n : nat -> reply)
    (st : App.session_state R) :
  exists ok msg st' rel,
    initialize_kite_mcp n st = (((ok, msg), st'), rel)
    /\ session_closed rel = true
    /\ App.authenticated st' = App.authenticated st
    /\ App.portfolio_result st' = App.portfolio_result st
    /\ (if ok : bool then
          msg = "Connection successful"
          /\ exists s, App.login_url st' = Some s
                       /\ s <> EmptyString /\ PyStr.strip s = s
        else st' = st).
Proof.
  destruct (initialize_kite_mcp_outcome n st)
    as (ok & msg & st' & rel & E & Hc & Ha & Hp & H).
  exists ok, msg, st', rel. repeat split; trivial.
  destruct ok; [|exact H]. destruct H as (H1 & H2 & _). now split.
Qed.

(** X20: a failed [initialize_kite_mcp] has one of two messages, never the
    ["Error: "] of its own handler.  After a failed handshake the message
    is ["Connection failed: "] with the exhaustion text, and no login was
    requested: every call posted is the handshake call.  Otherwise the
    login was posted once, after the handshake calls, and the message is
    ["Login request failed: "] with the error of the login envelope. *)
Theorem connect_failure_messages {R : Type} (n : nat -> reply)
    (st : App.session_state R) :
  exists ok msg st' rel k,
    initialize_kite_mcp n st = (((ok, msg), st'), rel)
    /\ (ok = true
        \/ (msg = "Connection failed: " ++ exhausted_message
            /\ sent (final rel) = repeat (handshake_call (aenter new_client)) k)
        \/ (exists m,
              msg = "Login request failed: " ++ m
              /\ sent (final rel)
                 = (repeat (handshake_call (aenter new_client)) k
                    ++ [{| post_url := mcp_url new_client;
                           post_json := login_payload;
                           post_content_type := "application/json" |}])%list)).
Proof.
  destruct (initialize_kite_mcp_run n st)
    as (k & w1 & Hsent & [[E Hs] | (w2 & Hsent2 & _ & Hs & E)]).
  - eexists _, _, _, _, k. split; [exact E|]. right. left. now split.
  - destruct (success (login_result (aenter new_client) (n k))
              && truthy (login_url (login_result (aenter new_client) (n k)))).
    + eexists _, _, _, _, k. split; [exact E|]. now left.
    + eexists _, _, _, _, k. split; [exact E|]. right. right.
      eexists. split; [reflexivity|]. cbn. now rewrite Hsent2, Hsent.
Qed.

(** A fresh client whose first post meets status 200. *)
Lemma fresh_handshake_first_round (n : nat -> reply) (v : value) :
  n O = Respond 200 (Decodes v) ->
  exists w1,
    initialize_connection (fresh_world n) = (Ok (handshake v), w1)
    /\ length (sent w1) = 1%nat
    /\ self w1 = aenter new_client
    /\ net w1 = n.
Proof.
  intros H0.
  destruct (initialize_connection_run (fresh_world n))
    as (env & w1 & E & Hself & Hnet & _).
  destruct (initialize_connection_loop (fresh_world n))
    as (w0 & S0 & T0 & U0 & _ & E0).
  destruct (attempts_first_success (range (retry_count (self (fresh_world n)))) w0 O v)
    as (w' & Ea & L).
  - rewrite S0. discriminate.
  - rewrite range_length. change (0 < 3)%nat. lia.
  - intros j Hj. lia.
  - rewrite T0, U0. exact H0.
  - rewrite Ea in E0. rewrite E in E0. injection E0 as -> ->.
    exists w'. rewrite U0 in L. now repeat split.
Qed.

(** X21: when the handshake succeeds at once and the login answer holds
    the login domain but its URL strips to the empty string,
    [request_login] reports success with an empty URL, and
    [initialize_kite_mcp] turns it into the failure
    ["Login request failed: None"], storing nothing. *)
Theorem empty_login_url_reported_as_none {R : Type} (n : nat -> reply)
    (st : App.session_state R) (v : value) (text : string) :
  n O = Respond 200 (Decodes v) ->
  n 1%nat = Respond 200 (Decodes (login_response text)) ->
  PyStr.contains login_domain text = true ->
  PyStr.strip (login_url_of text) = EmptyString ->
  exists rel,
    initialize_kite_mcp n st
    = (((false, "Login request failed: None"), st), rel).
Proof.
  intros H0 H1 Hd Hempty.
  destruct (fresh_handshake_first_round n v H0) as (w1 & E1 & L1 & Hself & Hnet).
  destruct (request_login_strips w1 _ _ _ _ text
              ltac:(rewrite Hself; discriminate)
              ltac:(rewrite Hnet, L1; exact H1)
              eq_refl eq_refl eq_refl Hd) as [w2 E2].
  exists (aexit w2).
  rewrite (initialize_kite_mcp_unfold n st _ w1 E1). cbn [success handshake negb].
  rewrite E2, Hempty. reflexivity.
Qed.

Lemma empty_login_url_reported_as_none_bare_marker :
  exists rel,
    @initialize_kite_mcp unit
      (answers [status_200]
         (Respond 200 (Decodes (login_response (login_domain ++ " URL: ")))))
      App.initial
    = (((false, "Login request failed: None"), App.initial), rel).
Proof.
  apply (empty_login_url_reported_as_none
           (answers [status_200]
              (Respond 200 (Decodes (login_response (login_domain ++ " URL: ")))))
           App.initial (VDict []) (login_domain ++ " URL: ")); reflexivity.
Defined.

(** ** The sidebar *)

(** X22: one run of the sidebar turns an unauthenticated session into an
    authenticated one only if, in that same run, the connect button is
    pressed, the handshake and the login succeed over the network (at
    least two calls are posted), the login URL stored is non-empty, the
    verify button is pressed too and the pasted callback holds
    ["session_id="]; the run then asks for a rerun.  In particular a run
    in which connect is not pressed cannot authenticate, whatever is
    pasted. *)
Theorem sidebar_authenticates_only_after_connect {R : Type}
    (connect verify logout : bool) (callback_url : string)
    (n : nat -> reply) (st : App.session_state R) :
  App.authenticated st = false ->
  App.authenticated (state (sidebar connect verify logout callback_url n st)) = true ->
  connect = true
  /\ verify = true
  /\ PyStr.contains session_marker callback_url = true
  /\ rerun (sidebar connect verify logout callback_url n st) = true
  /\ (exists s, App.login_url (state (sidebar connect verify logout callback_url n st))
                = Some s /\ s <> EmptyString)
  /\ (2 <= length (calls (sidebar connect verify logout callback_url n st)))%nat.
Proof.
  intros Hst. unfold sidebar. rewrite Hst. cbn [negb].
  destruct connect; [|cbn; congruence].
  destruct (initialize_kite_mcp_outcome n st)
    as (ok & msg & st1 & rel & E & _ & Ha & _ & H).
  rewrite E. rewrite Hst in Ha.
  destruct ok; [|subst st1; cbn; congruence].
  destruct H as (_ & (s & Hs & Hne & _) & Hcalls).
  rewrite Hs. destruct s as [|c u]; [congruence|].
  destruct verify; [|cbn; congruence].
  destruct (negb (String.eqb callback_url EmptyString)
            && PyStr.contains session_marker callback_url) eqn:C;
    [|cbn; congruence].
  apply andb_prop in C as [_ C]. cbn. intros _.
  repeat split; trivial.
  unfold App.verify_authentication.
  destruct (negb (String.eqb callback_url EmptyString)
            && PyStr.contains session_marker callback_url);
    cbn; rewrite ?Hs; now eexists.
Qed.

Lemma sidebar_authenticates_only_after_connect_example :
  PyStr.contains session_marker callback_example = true
  /\ rerun (@sidebar unit true true false callback_example
              (answers [status_200]
                 (Respond 200 (Decodes (login_response login_example))))
              App.initial) = true.
Proof.
  destruct (sidebar_authenticates_only_after_connect true true false
              callback_example
              (answers [status_200]
                 (Respond 200 (Decodes (login_response login_example))))
              (@App.initial unit) eq_refl eq_refl) as (_ & _ & A & B & _).
  now split.
Defined.

Lemma marker_nonempty (callback_url : string) :
  PyStr.contains session_marker callback_url = true ->
  String.eqb callback_url EmptyString = false.
Proof. destruct callback_url; [discriminate | reflexivity]. Qed.

(** X23: the verification of the application and the extraction of the
    client accept the same callbacks: on an unauthenticated session the
    verification handler sets the authenticated flag exactly when
    [extract_session_id_from_callback] would return an id.  The test that
    the callback is not empty adds nothing, and the handler stores no
    id. *)
Theorem verification_agrees_with_extraction {R : Type}
    (callback_url : string) (st : App.session_state R) (w : world) :
  App.authenticated st = false ->
  (App.authenticated (App.verify_authentication callback_url st) = true
   <-> exists id w', extract_session_id_from_callback callback_url w
                     = (Ok (Some id), w'))
  /\ App.login_url (App.verify_authentication callback_url st) = App.login_url st
  /\ App.portfolio_result (App.verify_authentication callback_url st)
     = App.portfolio_result st.
Proof.
  intros Hst. unfold App.verify_authentication.
  destruct (PyStr.contains session_marker callback_url) eqn:C.
  - rewrite (marker_nonempty _ C). cbn. repeat split; trivial.
    intros _.
    destruct (extract_session_id_found callback_url w C) as (w' & E & _).
    exists (session_id_of callback_url), w'. exact E.
  - rewrite andb_false_r. repeat split; trivial.
    + congruence.
    + intros (id & w' & E).
      rewrite (extract_session_id_absent callback_url w C) in E. discriminate.
Qed.

Lemma verification_agrees_with_extraction_example :
  App.authenticated
    (App.verify_authentication callback_example (@App.initial unit)) = true
  <-> exists id w',
        extract_session_id_from_callback callback_example
          (fresh_world (answers [] status_200))
        = (Ok (Some id), w').
Proof.
  apply (verification_agrees_with_extraction callback_example
           (@App.initial unit) (fresh_world (answers [] status_200))).
  reflexivity.
Defined.

(** ** The recommendation: request, storage, display *)

Lemma of_data_optional (v : value) : of_data (optional v) = v.
Proof. now destruct v. Qed.

Lemma advice_calls_ids
    (fq : value -> value -> value -> value -> outcome string)
    (age amount plan_type risk_level : value) (c : KiteMCPClient) :
  (length (advice_calls fq age amount plan_type risk_level c) <= 1)%nat
  /\ Forall (fun p => request_id p = Some (VInt 3))
       (advice_calls fq age amount plan_type risk_level c).
Proof.
  unfold advice_calls, call.
  destruct (fq age amount plan_type risk_level); cbn; [|split; [lia | constructor]].
  destruct (session c); cbn; split; try lia; repeat constructor.
Qed.

Lemma get_mcp_recommendation_run
    (fq : value -> value -> value -> value -> outcome string)
    (age amount plan_type risk_level : value) (n : nat -> reply) :
  exists w',
    sent w' = advice_calls fq age amount plan_type risk_level (aenter new_client)
    /\ session (self w') <> None
    /\ get_mcp_recommendation fq age amount plan_type risk_level n
       = ((if success (advice_result fq age amount plan_type risk_level
                         (aenter new_client) (n O))
           then (true, of_data (data (advice_result fq age amount plan_type
                                        risk_level (aenter new_client) (n O))))
           else (false, of_error (error (advice_result fq age amount plan_type
                                           risk_level (aenter new_client) (n O))))),
          aexit w').
Proof.
  destruct (get_portfolio_recommendation_run fq age amount plan_type risk_level
              (fresh_world n)) as (w' & E & Hself & _ & Hsent & _).
  exists w'. split; [exact Hsent|]. split; [rewrite Hself; discriminate|].
  unfold get_mcp_recommendation, async_with, bind. rewrite E. cbn [self net sent fresh_world length].
  now destruct (success _).
Qed.


Lemma mcp_recommendation_outcome
    (fq : value -> value -> value -> value -> outcome string)
    (age amount plan_type risk_level : value) (n : nat -> reply) :
  exists ok payload rel,
    get_mcp_recommendation fq age amount plan_type risk_level n
    = ((ok, payload), rel)
    /\ (length (sent (final rel)) <= 1)%nat
    /\ (if ok : bool then n O = Respond 200 (Decodes payload) else True).
Proof.
  destruct (get_mcp_recommendation_run fq age amount plan_type risk_level n)
    as (w' & Hsent & Hs & E).
  destruct (advice_calls_ids fq age amount plan_type risk_level (aenter new_client))
    as [L F].
  destruct (success (advice_result fq age amount plan_type risk_level
                       (aenter new_client) (n O))) eqn:C.
  - eexists _, _, _. split; [exact E|]. cbn [final aexit].
    rewrite Hsent. split; [exact L|].
    unfold advice_result in C |- *.
    destruct (fq age amount plan_type risk_level); [|discriminate].
    destruct (classify (aenter new_client) (n O)) as [v|st|e] eqn:K;
      try discriminate.
    apply classify_succeeded in K as [_ ->]. cbn. now rewrite of_data_optional.
  - eexists _, _, _. split; [exact E|]. cbn [final aexit].
    rewrite Hsent. now split.
Qed.

(** X25: the block [if submitted:] of lines 244-265.  Without a
    submission nothing changes.  A submission first stores the result of
    the calculator under [portfolio_result] (when the calculator raises,
    the run ends there, before anything is posted); it never touches the
    authenticated flag or the login URL.  It asks the endpoint only when
    the session is authenticated: otherwise nothing is posted or drawn and
    the stored recommendation stays.  When authenticated, at most one call
    is posted, and the stored recommendation is replaced only by the
    decoded body of a status 200 answer: a failed request keeps the
    recommendation stored before. *)
Theorem recommendation_is_gated {R : Type}
    (fq : value -> value -> value -> value -> outcome string)
    (calculate : value -> value -> value -> value -> outcome R)
    (submitted : bool)
    (age amount plan_type risk_level : value) (n : nat -> reply)
    (pg : @page_state R) :
  if submitted then
    match calculate age amount plan_type risk_level with
    | Raise e =>
        submit_form fq calculate true age amount plan_type risk_level n pg
        = Raise e
    | Ok result =>
        exists pg' drawn calls,
          submit_form fq calculate true age amount plan_type risk_level n pg
          = Ok (pg', drawn, calls)
          /\ App.authenticated (core pg') = App.authenticated (core pg)
          /\ App.login_url (core pg') = App.login_url (core pg)
          /\ App.portfolio_result (core pg') = Some result
          /\ (length calls <= 1)%nat
          /\ (if App.authenticated (core pg) then
                mcp_recommendation pg' = mcp_recommendation pg
                \/ exists v, n O = Respond 200 (Decodes v)
                             /\ mcp_recommendation pg' = Some v
              else mcp_recommendation pg' = mcp_recommendation pg
                   /\ drawn = [] /\ calls = [])
    end
  else
    submit_form fq calculate false age amount plan_type risk_level n pg
    = Ok (pg, [], []).
Proof.
  destruct submitted; [|reflexivity].
  unfold submit_form.
  destruct (calculate age amount plan_type risk_level) as [result|e];
    [|reflexivity].
  destruct (App.authenticated (core pg)).
  2:{ eexists _, _, _. split; [reflexivity|]. cbn. repeat split. lia. }
  destruct (mcp_recommendation_outcome fq age amount plan_type risk_level n)
    as (ok & payload & rel & E & L & H).
  rewrite E. destruct ok.
  - eexists _, _, _. split; [reflexivity|]. cbn. repeat split; trivial.
    right. now exists payload.
  - eexists _, _, _. split; [reflexivity|]. cbn. repeat split; trivial. now left.
Qed.

(** The walk of the display and the walk of [request_login] are the same
    walk, up to what they do with the text. *)
Lemma walks_agree (v : value) :
  match recommendation_view v with
  | Raise e => find_login_url v = Raise e
  | Ok (Json x) => x = v /\ find_login_url v = Ok None
  | Ok (Markdown text) => find_login_url v = extract_login_url text
  | Ok _ => False
  end.
Proof.
  unfold recommendation_view, find_login_url, and_then.
  destruct (Py.contains "result" v) as [[|]|e]; cbn; try (now split).
  destruct (Py.getitem v "result") as [r|e]; cbn; try reflexivity.
  destruct (Py.contains "content" r) as [[|]|e]; cbn; try (now split).
  destruct (Py.getitem r "content") as [content|e]; cbn; try reflexivity.
  destruct (Py.nonempty_list content) as [l|]; cbn; try (now split).
  destruct (Py.index l 0) as [first|e]; cbn; try reflexivity.
  destruct (Py.get first "text" (VStr EmptyString)) as [text|e]; cbn; reflexivity.
Qed.

(** X26: the display reads a stored recommendation by the same walk as
    [request_login] reads a login answer.  Where the display draws the
    text of the first content element, the login walk extracts from that
    same text; where it falls back to the raw JSON, the login walk finds
    no URL (["Invalid response format"]); where it raises, the login walk
    raises the same exception. *)
Theorem display_walk_matches_login_walk (v : value) :
  (forall text, recommendation_view v = Ok (Markdown text) ->
                find_login_url v = extract_login_url text)
  /\ (forall x, recommendation_view v = Ok (Json x) ->
                x = v /\ find_login_url v = Ok None)
  /\ (forall e, recommendation_view v = Raise e -> find_login_url v = Raise e).
Proof.
  pose proof (walks_agree v) as H.
  destruct (recommendation_view v) as [s|e].
  - split; [|split].
    + intros text [= ->]. exact H.
    + intros x [= ->]. exact H.
    + discriminate.
  - split; [|split]; try discriminate.
    intros e' [= <-]. exact H.
Qed.

Lemma display_walk_matches_login_walk_example :
  find_login_url (login_response login_example)
  = extract_login_url (VStr login_example).
Proof.
  apply (proj1 (display_walk_matches_login_walk (login_response login_example))).
  reflexivity.
Defined.




(** ** The allocation chart *)

Section ChartFacts.

Variable num : Type.
Variable positive : num -> bool.
Variable show : num -> string.

Lemma add_slice_aligned (name colour : string) (x : num)
    (labels : list string) (values : list num) (colors : list string) :
  exists labels' values' colors',
    add_slice num positive show name colour x (labels, values, colors)
    = (labels', values', colors')
    /\ values' = (values ++ filter positive [x])%list
    /\ colors' = (colors ++ if positive x then [colour] else [])%list
    /\ length labels' = (length labels + length (filter positive [x]))%nat.
Proof.
  unfold add_slice. cbn. destruct (positive x); eexists _, _, _;
    (split; [reflexivity|]); rewrite ?app_nil_r, ?length_app; cbn;
    repeat split; lia.
Qed.

(** X28: the three lists [create_allocation_chart] hands to the pie stay
    aligned: they have the same length, and the values are the equity,
    debt and gold percentages that are greater than 0, in that order; a
    component that is not positive gets no slice, no label and no
    colour. *)
Theorem chart_lists_aligned (allocation : PortfolioAllocation num) :
  exists labels values colors,
    chart_slices num positive show allocation = (labels, values, colors)
    /\ values = filter positive [equity_percent num allocation;
                                 debt_percent num allocation;
                                 gold_percent num allocation]
    /\ length labels = length values
    /\ length colors = length values
    /\ Forall (fun x => positive x = true) values.
Proof.
  unfold chart_slices.
  destruct (add_slice_aligned "Equity" "#1f77b4" (equity_percent num allocation)
              [] [] []) as (l1 & v1 & c1 & -> & V1 & C1 & L1).
  destruct (add_slice_aligned "Debt" "#ff7f0e" (debt_percent num allocation)
              l1 v1 c1) as (l2 & v2 & c2 & -> & V2 & C2 & L2).
  destruct (add_slice_aligned "Gold" "#ffd700" (gold_percent num allocation)
              l2 v2 c2) as (l3 & v3 & c3 & -> & V3 & C3 & L3).
  exists l3, v3, c3. split; [reflexivity|].
  subst. cbn in *.
  destruct (positive (equity_percent num allocation)) eqn:E,
           (positive (debt_percent num allocation)) eqn:D,
           (positive (gold_percent num allocation)) eqn:G;
    cbn in *; repeat split; try lia; repeat constructor; assumption.
Qed.

End ChartFacts.

(** ** What a status 200 decides *)

(** A handshake whose round [k] is the first to meet a status 200 with a
    decodable body: the envelope, and the calls sent.  No delay of the
    rounds before is beyond what [asyncio.sleep] takes when [k] is at most
    1024. *)
Lemma initialize_connection_first_success (w : world) (k : nat) (v : value) :
  session (self w) <> None ->
  (k <= 1024)%nat ->
  Z.of_nat k < retry_count (self w) ->
  (forall j, (j < k)%nat -> unsuccessful (net w (length (sent w) + j))) ->
  net w (length (sent w) + k) = Respond 200 (Decodes v) ->
  exists w',
    initialize_connection w = (Ok (handshake v), w')
    /\ self w' = self w
    /\ net w' = net w
    /\ sent w' = (sent w ++ repeat (handshake_call (self w)) (k + 1))%list.
Proof.
  intros Hs _ Hk Hbad Hgood.
  destruct (initialize_connection_run w) as (env & w1 & E & Hself & Hnet & _).
  destruct (initialize_connection_loop w) as (w0 & S0 & T0 & U0 & _ & E0).
  destruct (attempts_first_success (range (retry_count (self w))) w0 k v)
    as (w' & Ea & L).
  - now rewrite S0.
  - rewrite range_length. lia.
  - now rewrite T0, U0.
  - now rewrite T0, U0.
  - destruct (attempts_calls (range (retry_count (self w))) w0)
      as (r & w'' & k' & Ec & Hsent & _).
    rewrite Ea in Ec. injection Ec as <- <-.
    rewrite Ea in E0. rewrite E in E0. injection E0 as -> ->.
    exists w'. repeat split; trivial.
    rewrite Hsent, length_app, repeat_length in L.
    assert (k' = (k + 1)%nat) as -> by lia.
    now rewrite S0, U0 in Hsent.
Qed.

Lemma login_result_unrecognised (c : KiteMCPClient) (d : list (string * value)) :
  session c <> None ->
  unrecognised d ->
  login_result c (Respond 200 (Decodes (VDict d)))
  = failure "Invalid response format".
Proof.
  intros Hs Hd. unfold login_result.
  rewrite (classify_ok _ _ Hs), (find_login_url_unrecognised _ Hd).
  reflexivity.
Qed.

(** C6 (as stated) fails twice.  The status does not decide alone: a
    login answered with status 200 and an empty object fails with
    ["Invalid response format"], and a recommendation answered with
    status 200 and a body that cannot be decoded fails as well.  And the
    handshake does not put the status into its message: when every round
    meets status 500 the failure carries the fixed exhaustion message,
    which does not embed the status. *)
Lemma status_alone_does_not_decide :
  (exists w',
      request_login (fresh_world (answers [] status_200))
      = (Ok (failure "Invalid response format"), w')
      /\ success (failure "Invalid response format") = false)
  /\ (exists w' msg,
        get_portfolio_recommendation render
          (VInt 30) (VInt 10000) (VStr "SIP") (VStr "Medium")
          (fresh_world
             (answers [] (Respond 200 (Undecodable (Exn "ContentTypeError" "bad body")))))
        = (Ok (failure msg), w')
        /\ success (failure msg) = false)
  /\ (exists w',
        initialize_connection (fresh_world (answers [] status_500))
        = (Ok exhausted, w')
        /\ success exhausted = false
        /\ error exhausted = Some exhausted_message
        /\ PyStr.contains (PyStr.of_int 500) exhausted_message = false).
Proof.
  repeat apply conj.
  - eexists. split; [vm_compute; reflexivity | reflexivity].
  - eexists _, _. split; [vm_compute; reflexivity | reflexivity].
  - eexists. split; [vm_compute; reflexivity|]. repeat split.
Qed.

(** C6 (as amended).  In every public operation success requires a
    response with status 200.  With an open session such a response is
    also enough when its body can be decoded: in [initialize_connection]
    for the first one among the rounds ([retry_count] at most 1025), in
    [get_portfolio_recommendation] when the query text renders; in
    [request_login] it succeeds when the decoded body carries, as the text
    of the first element of [result.content], a text with the login
    domain, and fails with ["Invalid response format"] when the walk of
    lines 116-122 comes to no such text.  In [request_login] and
    [get_portfolio_recommendation] a response with any other status gives
    a failure whose message ends with the decimal status.  In
    [initialize_connection] such a response is retried, and when every
    round meets one the failure carries the fixed exhaustion message. *)
Theorem status_200_discriminates :
  (forall w env w',
      initialize_connection w = (Ok env, w') -> success env = true ->
      exists n v, (length (sent w) <= n < length (sent w'))%nat
                  /\ net w n = Respond 200 (Decodes v))
  /\ (forall w env w',
        request_login w = (Ok env, w') -> success env = true ->
        exists v, net w (length (sent w)) = Respond 200 (Decodes v))
  /\ (forall fq age amount plan_type risk_level w env w',
        get_portfolio_recommendation fq age amount plan_type risk_level w
        = (Ok env, w') ->
        success env = true ->
        exists v, net w (length (sent w)) = Respond 200 (Decodes v))
  /\ (forall w k v,
        session (self w) <> None ->
        retry_count (self w) <= 1025 ->
        Z.of_nat k < retry_count (self w) ->
        (forall j, (j < k)%nat -> unsuccessful (net w (length (sent w) + j))) ->
        net w (length (sent w) + k) = Respond 200 (Decodes v) ->
        exists env w',
          initialize_connection w = (Ok env, w')
          /\ success env = true /\ data env = optional v /\ error env = None)
  /\ (forall fq age amount plan_type risk_level query_text w v,
        fq age amount plan_type risk_level = Ok query_text ->
        session (self w) <> None ->
        net w (length (sent w)) = Respond 200 (Decodes v) ->
        exists env w',
          get_portfolio_recommendation fq age amount plan_type risk_level w
          = (Ok env, w')
          /\ success env = true /\ data env = optional v /\ error env = None)
  /\ (forall w d r f rest text,
        session (self w) <> None ->
        net w (length (sent w)) = Respond 200 (Decodes (VDict d)) ->
        Py.lookup "result" d = Some (VDict r) ->
        Py.lookup "content" r = Some (VList (VDict f :: rest)) ->
        Py.lookup "text" f = Some (VStr text) ->
        PyStr.contains login_domain text = true ->
        exists env w',
          request_login w = (Ok env, w')
          /\ success env = true /\ error env = None)
  /\ (forall w d,
        session (self w) <> None ->
        net w (length (sent w)) = Respond 200 (Decodes (VDict d)) ->
        unrecognised d ->
        exists w',
          request_login w = (Ok (failure "Invalid response format"), w'))
  /\ (forall w st b,
        session (self w) <> None ->
        net w (length (sent w)) = Respond st b -> st <> 200 ->
        exists w' msg,
          request_login w = (Ok (failure msg), w')
          /\ msg = "Login request failed with status " ++ PyStr.of_int st
          /\ PyStr.contains (PyStr.of_int st) msg = true)
  /\ (forall fq age amount plan_type risk_level query_text w st b,
        fq age amount plan_type risk_level = Ok query_text ->
        session (self w) <> None ->
        net w (length (sent w)) = Respond st b -> st <> 200 ->
        exists w' msg,
          get_portfolio_recommendation fq age amount plan_type risk_level w
          = (Ok (failure msg), w')
          /\ msg = "Portfolio request failed with status " ++ PyStr.of_int st
          /\ PyStr.contains (PyStr.of_int st) msg = true)
  /\ (forall w,
        session (self w) <> None ->
        (forall k, (k < length (range (retry_count (self w))))%nat ->
           exists st b, net w (length (sent w) + k) = Respond st b /\ st <> 200) ->
        exists w',
          initialize_connection w = (Ok (failure exhausted_message), w')).
Proof.
  repeat apply conj.
  - intros w env w' E Hs.
    destruct (initialize_connection_run w) as (env1 & w1 & E1 & _ & _ & _ & H).
    rewrite E in E1. injection E1 as <- <-.
    destruct H as [->|(n & v & Hn & Hv & _)]; [discriminate|].
    now exists n, v.
  - intros w env w' E Hs.
    destruct (request_login_run w) as (w1 & E1 & _).
    rewrite E in E1. injection E1 as -> _.
    now apply login_result_success in Hs.
  - intros fq age amount plan_type risk_level w env w' E Hs.
    destruct (get_portfolio_recommendation_run fq age amount plan_type risk_level w)
      as (w1 & E1 & _).
    rewrite E in E1. injection E1 as -> _.
    now apply advice_result_success in Hs.
  - intros w k v Hs Hrc Hk Hbad Hgood.
    destruct (initialize_connection_first_success w k v Hs) as (w' & E & _);
      trivial; [lia|].
    exists (handshake v), w'. now repeat split.
  - intros fq age amount plan_type risk_level query_text w v Hq Hs Hn.
    destruct (get_portfolio_recommendation_run fq age amount plan_type risk_level w)
      as (w' & E & _).
    exists (handshake v), w'. rewrite E, Hn. unfold advice_result.
    rewrite Hq, (classify_ok _ _ Hs). now repeat split.
  - intros w d r f rest text Hs Hn Hr Hc Ht Hd.
    destruct (request_login_strips w d r f rest text Hs Hn Hr Hc Ht Hd)
      as (w' & E).
    eexists _, w'. split; [exact E|]. now split.
  - intros w d Hs Hn Hd.
    destruct (request_login_run w) as (w' & E & _).
    exists w'. rewrite E, Hn. now rewrite login_result_unrecognised.
  - intros w st b Hs Hn Hst.
    destruct (request_login_run w) as (w' & E & _).
    exists w'. eexists. rewrite E, Hn. unfold login_result.
    rewrite (classify_refused _ _ _ Hs Hst).
    repeat split. apply PyStrFacts.contains_suffix.
  - intros fq age amount plan_type risk_level query_text w st b Hq Hs Hn Hst.
    destruct (get_portfolio_recommendation_run fq age amount plan_type risk_level w)
      as (w' & E & _).
    exists w'. eexists. rewrite E, Hn. unfold advice_result.
    rewrite Hq, (classify_refused _ _ _ Hs Hst).
    repeat split. apply PyStrFacts.contains_suffix.
  - intros w Hs Hn.
    destruct (initialize_connection_loop w) as (w0 & S0 & T0 & U0 & _ & ->).
    destruct (attempts_refused (range (retry_count (self w))) w0)
      as (w' & -> & _).
    + now rewrite S0.
    + now rewrite T0, U0.
    + now exists w'.
Qed.

Lemma status_200_discriminates_examples :
  (exists env w',
      initialize_connection (fresh_world (answers [status_500] status_200))
      = (Ok env, w')
      /\ success env = true /\ data env = optional (VDict []) /\ error env = None)
  /\ (exists env w',
        get_portfolio_recommendation render
          (VInt 30) (VInt 10000) (VStr "SIP") (VStr "Medium")
          (fresh_world (answers [] status_200))
        = (Ok env, w')
        /\ success env = true /\ data env = optional (VDict []) /\ error env = None)
  /\ (exists env w',
        request_login
          (fresh_world (answers [] (Respond 200 (Decodes (login_response login_example)))))
        = (Ok env, w')
        /\ success env = true /\ error env = None)
  /\ (exists w',
        request_login (fresh_world (answers [] status_200))
        = (Ok (failure "Invalid response format"), w'))
  /\ (exists w' msg,
        request_login (fresh_world (answers [] (Respond 404 (Decodes VNone))))
        = (Ok (failure msg), w')
        /\ msg = "Login request failed with status 404"
        /\ PyStr.contains "404" msg = true)
  /\ (exists w' msg,
        get_portfolio_recommendation render
          (VInt 30) (VInt 10000) (VStr "SIP") (VStr "Medium")
          (fresh_world (answers [] (Respond 503 (Decodes VNone))))
        = (Ok (failure msg), w')
        /\ msg = "Portfolio request failed with status 503"
        /\ PyStr.contains "503" msg = true)
  /\ (exists w',
        initialize_connection (fresh_world (answers [] status_500))
        = (Ok (failure exhausted_message), w')).
Proof.
  destruct status_200_discriminates
    as (_ & _ & _ & S1 & S2 & S3 & S4 & F1 & F2 & F3).
  repeat apply conj.
  - apply (S1 (fresh_world (answers [status_500] status_200)) 1%nat (VDict [])).
    + discriminate.
    + cbn. lia.
    + reflexivity.
    + intros j Hj v. assert (j = O) as -> by lia. discriminate.
    + reflexivity.
  - apply (S2 render (VInt 30) (VInt 10000) (VStr "SIP") (VStr "Medium") "query"
             (fresh_world (answers [] status_200)) (VDict []));
      [reflexivity | discriminate | reflexivity].
  - apply (S3 (fresh_world
                 (answers [] (Respond 200 (Decodes (login_response login_example)))))
             [("result", VDict [("content", VList [VDict [("text", VStr login_example)]])])]
             [("content", VList [VDict [("text", VStr login_example)]])]
             [("text", VStr login_example)] [] login_example);
      [discriminate | reflexivity ..].
  - apply (S4 (fresh_world (answers [] status_200)) []);
      [discriminate | reflexivity | now apply no_result].
  - apply (F1 (fresh_world (answers [] (Respond 404 (Decodes VNone))))
             404 (Decodes VNone)); [discriminate | reflexivity | discriminate].
  - apply (F2 render (VInt 30) (VInt 10000) (VStr "SIP") (VStr "Medium") "query"
             (fresh_world (answers [] (Respond 503 (Decodes VNone))))
             503 (Decodes VNone));
      [reflexivity | discriminate | reflexivity | discriminate].
  - apply (F3 (fresh_world (answers [] status_500))); [discriminate|].
    intros k _. exists 500, (Decodes VNone). split; [|discriminate].
    unfold answers. cbn. now destruct k.
Defined.

(** ** Request ids *)

(** C7 (as stated) fails: the three posts of a handshake that is retried
    all carry id 1; two logins carry id 2 twice; a login after a
    recommendation carries id 2 after id 3. *)
Lemma request_ids_repeat :
  request_ids (snd (initialize_connection (fresh_world (answers [] status_500))))
  = [Some (VInt 1); Some (VInt 1); Some (VInt 1)]
  /\ strictly_increasing
       (request_ids (snd (initialize_connection
                            (fresh_world (answers [] status_500))))) = false
  /\ request_ids (snd (request_login
                         (snd (request_login (fresh_world (answers [] status_200))))))
     = [Some (VInt 2); Some (VInt 2)]
  /\ request_ids (snd (request_login
                         (snd (get_portfolio_recommendation render
                                 (VInt 30) (VInt 10000) (VStr "SIP") (VStr "Medium")
                                 (fresh_world (answers [] status_200))))))
     = [Some (VInt 3); Some (VInt 2)].
Proof. repeat split; vm_compute; reflexivity. Qed.

Lemma request_id_of_json (json : value) (id : value) (new : list post_call) :
  (match json with VDict d => Py.lookup "id" d | _ => None end) = Some id ->
  Forall (fun p => post_json p = json) new ->
  Forall (fun p => request_id p = Some id) new.
Proof.
  intros H. apply Forall_impl. intros p Hp. unfold request_id. now rewrite Hp.
Qed.

Lemma call_open (c : KiteMCPClient) (json : value) :
  session c <> None ->
  call c json = [{| post_url := mcp_url c; post_json := json;
                    post_content_type := "application/json" |}].
Proof. unfold call. now destruct (session c). Qed.

(** C7 (as amended): the request id is a constant of the operation, not a
    counter.  Every call [initialize_connection] posts, retries included,
    carries id 1; the call of [request_login] carries id 2; the call of
    [get_portfolio_recommendation] carries id 3.  So when a client with an
    open session runs a handshake that succeeds in its first round, then a
    login, then a recommendation whose query text renders, the three
    calls it sends carry the strictly increasing ids 1, 2, 3. *)
Theorem request_ids_are_fixed :
  (forall w, exists new,
      sent (snd (initialize_connection w)) = (sent w ++ new)%list
      /\ Forall (fun p => request_id p = Some (VInt 1)) new)
  /\ (forall w, exists new,
        sent (snd (request_login w)) = (sent w ++ new)%list
        /\ Forall (fun p => request_id p = Some (VInt 2)) new)
  /\ (forall fq age amount plan_type risk_level w, exists new,
        sent (snd (get_portfolio_recommendation fq age amount plan_type risk_level w))
        = (sent w ++ new)%list
        /\ Forall (fun p => request_id p = Some (VInt 3)) new)
  /\ (forall fq age amount plan_type risk_level query_text w v,
        session (self w) <> None ->
        0 < retry_count (self w) ->
        net w (length (sent w)) = Respond 200 (Decodes v) ->
        fq age amount plan_type risk_level = Ok query_text ->
        exists new,
          sent (snd (get_portfolio_recommendation fq age amount plan_type risk_level
                       (snd (request_login (snd (initialize_connection w))))))
          = (sent w ++ new)%list
          /\ map request_id new = [Some (VInt 1); Some (VInt 2); Some (VInt 3)]
          /\ strictly_increasing (map request_id new) = true).
Proof.
  repeat apply conj.
  - intros w.
    destruct (initialize_connection_run w)
      as (env & w' & E & _ & _ & (new & S1 & S2 & _) & _).
    exists new. rewrite E. split; [exact S1|].
    now apply (request_id_of_json init_payload).
  - intros w. destruct (request_login_run w) as (w' & E & _ & _ & S1 & _).
    exists (call (self w) login_payload). rewrite E. split; [exact S1|].
    apply (request_id_of_json login_payload); [reflexivity | apply call_json].
  - intros fq age amount plan_type risk_level w.
    destruct (get_portfolio_recommendation_run fq age amount plan_type risk_level w)
      as (w' & E & _ & _ & S1 & _).
    exists (advice_calls fq age amount plan_type risk_level (self w)).
    rewrite E. split; [exact S1|].
    unfold advice_calls. destruct (fq age amount plan_type risk_level) as [q|e];
      [|constructor].
    apply (request_id_of_json (recommendation_payload q age amount plan_type risk_level));
      [reflexivity | apply call_json].
  - intros fq age amount plan_type risk_level query_text w v Hs Hrc Hn Hq.
    destruct (initialize_connection_first_success w O v Hs) as (w1 & E1 & F1 & N1 & S1).
    + lia.
    + cbn. lia.
    + intros j Hj. lia.
    + now rewrite Nat.add_0_r.
    + destruct (request_login_run w1) as (w2 & E2 & F2 & N2 & S2 & _).
      destruct (get_portfolio_recommendation_run fq age amount plan_type
                  risk_level w2) as (w3 & E3 & _ & _ & S3 & _).
      rewrite E1. cbn [snd]. rewrite E2. cbn [snd]. rewrite E3. cbn [snd].
      rewrite S3, S2, S1. unfold advice_calls. rewrite Hq, F2, F1.
      rewrite !call_open by exact Hs. cbn [repeat Nat.add].
      eexists. rewrite <- !app_assoc. split; [reflexivity|].
      split; reflexivity.
Qed.

Lemma request_ids_are_fixed_canonical_flow :
  exists new,
    sent (snd (get_portfolio_recommendation render
                 (VInt 30) (VInt 10000) (VStr "SIP") (VStr "Medium")
                 (snd (request_login
                         (snd (initialize_connection
                                 (fresh_world (answers [] status_200))))))))
    = new
    /\ map request_id new = [Some (VInt 1); Some (VInt 2); Some (VInt 3)]
    /\ strictly_increasing (map request_id new) = true.
Proof.
  apply (proj2 (proj2 (proj2 request_ids_are_fixed))
           render (VInt 30) (VInt 10000) (VStr "SIP") (VStr "Medium") "query"
           (fresh_world (answers [] status_200)) (VDict []));
    [discriminate | reflexivity | reflexivity | reflexivity].
Defined.

(** ** Logout *)




